(** * PhloxAR.color: a shallow embedding of [src/PhloxAR/color.py]

    The module has three classes: [Color] (a palette of named RGB triples with
    conversion and grey-scale helpers), [ColorCurve] (a 256-entry lookup table
    sampled from a smoothing spline) and [ColorMap] (a piecewise-linear colour
    gradient over a numeric range).

    Numbers are modelled as Python has them: [int] is [Z], [float] is the
    kernel's binary64 [float] (IEEE 754 round-to-nearest-even, the arithmetic
    of CPython's [float] and of numpy's [float64]), and an operation that can
    raise returns a [res].  Python 3 semantics are used throughout ([/] is
    true division, [round] returns an [int] and rounds halves to even). *)

From Stdlib Require Import ZArith List Bool Lia Floats.
Import ListNotations.
Set Warnings "-inexact-float".
Local Open Scope Z_scope.

(** ** Exceptions and fallible computations *)

Inductive exn : Set :=
| ZeroDivisionError
| ValueError
| OverflowError
| IndexError
| TypeError.

Inductive res (A : Type) : Type :=
| Ok (a : A)
| Raise (e : exn).
Arguments Ok {A} a.
Arguments Raise {A} e.

Definition bind {A B : Type} (c : res A) (k : A -> res B) : res B :=
  match c with
  | Ok a => k a
  | Raise e => Raise e
  end.

Notation "x <- c ;; k" := (bind c (fun x => k))
  (at level 61, c at next level, right associativity).
Notation "' p <- c ;; k" := (bind c (fun x => let p := x in k))
  (at level 61, p pattern, c at next level, right associativity).

(** ** Python's numeric primitives *)

Module Py.

(** [float(n)] for an [int] n, and the implicit conversion of an [int]
    operand in mixed arithmetic: the binary64 nearest to n (exact for
    |n| <= 2^53).  Beyond the range of binary64 CPython raises
    OverflowError; no caller below reaches that. *)
Definition of_nonneg (n : Z) : float :=
  if n <? 9223372036854775808 (* 2^63 *) then of_uint63 (Uint63.of_Z n)
  else SF2Prim (binary_normalize prec emax n 0 false).

Definition of_int (n : Z) : float :=
  match n with
  | Z0 => 0%float
  | Zpos _ => of_nonneg n
  | Zneg p => (- of_nonneg (Zpos p))%float
  end.

(** x is a number: neither a NaN nor an infinity. *)
Definition finite (x : float) : bool :=
  match Prim2SF x with
  | S754_zero _ | S754_finite _ _ _ => true
  | _ => false
  end.

(** z is a zero, a finite number or an infinity of sign s (true for
    negative). *)
Definition has_sign (s : bool) (z : spec_float) : Prop :=
  match z with
  | S754_zero s' | S754_infinity s' | S754_finite s' _ _ => s' = s
  | S754_nan => False
  end.

(** [a / b] on floats: CPython tests the divisor against zero first. *)
Definition truediv (a b : float) : res float :=
  if (b =? 0)%float then Raise ZeroDivisionError else Ok (a / b)%float.

(** [a / b] on ints (true division). *)
Definition int_truediv (a b : Z) : res float :=
  truediv (of_int a) (of_int b).

(** [int(x)]: truncation toward zero; NaN and the infinities raise. *)
Definition int_of_float (x : float) : res Z :=
  match Prim2SF x with
  | S754_nan => Raise ValueError
  | S754_infinity _ => Raise OverflowError
  | S754_zero _ => Ok 0
  | S754_finite s m e => Ok (cond_Zopp s (Z.shiftl (Zpos m) e))
  end.

(** The integer nearest to m * 2^e for m >= 0, halves going to the even
    neighbour. *)
Definition round_half_even (m e : Z) : Z :=
  if 0 <=? e then Z.shiftl m e
  else
    let k := - e in
    let q := Z.shiftr m k in
    let r := m - Z.shiftl q k in
    match r ?= Z.shiftl 1 (k - 1) with
    | Lt => q
    | Gt => q + 1
    | Eq => if Z.even q then q else q + 1
    end.

(** [round(x)] with one argument. *)
Definition round (x : float) : res Z :=
  match Prim2SF x with
  | S754_nan => Raise ValueError
  | S754_infinity _ => Raise OverflowError
  | S754_zero _ => Ok 0
  | S754_finite s m e => Ok (cond_Zopp s (round_half_even (Zpos m) e))
  end.

(** [x % 1.0]: C's [fmod] (exact, with the sign of x), moved into [0, 1)
    when negative; a zero remainder is returned as +0.0. *)
Definition mod1 (x : float) : float :=
  match int_of_float x with
  | Raise _ => nan
  | Ok z =>
      let m := if (abs x <? 0x1p53)%float then (x - of_int z)%float else 0%float in
      if (m =? 0)%float then 0%float
      else if (m <? 0)%float then (m + 1)%float else m
  end.

(** [l[i]] on a list, a tuple or the first axis of a numpy array. *)
Definition getitem {A : Type} (l : list A) (i : Z) : res A :=
  let n := Z.of_nat (length l) in
  let j := if i <? 0 then n + i else i in
  if (0 <=? j) && (j <? n) then
    match nth_error l (Z.to_nat j) with
    | Some a => Ok a
    | None => Raise IndexError
    end
  else Raise IndexError.

(** [range(n)] *)
Definition range (n : nat) : list Z := map Z.of_nat (seq 0 n).

End Py.

(** ** The standard library's [colorsys] (CPython 3), as [Color] calls it *)

Module colorsys.

Definition rgb_to_hsv (r g b : Z) : res (float * float * Z) :=
  let maxc := Z.max (Z.max r g) b in
  let minc := Z.min (Z.min r g) b in
  let rangec := maxc - minc in
  let v := maxc in
  if minc =? maxc then Ok (0%float, 0%float, v)
  else
    s <- Py.int_truediv rangec maxc ;;
    rc <- Py.int_truediv (maxc - r) rangec ;;
    gc <- Py.int_truediv (maxc - g) rangec ;;
    bc <- Py.int_truediv (maxc - b) rangec ;;
    let h :=
      if r =? maxc then (bc - gc)%float
      else if g =? maxc then (2 + rc - bc)%float
      else (4 + gc - rc)%float in
    Ok (Py.mod1 (h / 6)%float, s, v).

Definition hsv_to_rgb (h s v : float) : res (float * float * float) :=
  if (s =? 0)%float then Ok (v, v, v)
  else
    i <- Py.int_of_float (h * 6)%float ;;
    let f := (h * 6 - Py.of_int i)%float in
    let p := (v * (1 - s))%float in
    let q := (v * (1 - s * f))%float in
    let t := (v * (1 - s * (1 - f)))%float in
    match i mod 6 with
    | 0 => Ok (v, t, p)
    | 1 => Ok (q, v, p)
    | 2 => Ok (p, v, t)
    | 3 => Ok (p, q, v)
    | 4 => Ok (t, p, v)
    | 5 => Ok (v, p, q)
    | _ => Raise TypeError
    end.

End colorsys.

(** ** class Color *)

Module Color.

Definition rgb : Set := (Z * Z * Z)%type.

Definition BLACK : rgb := (0, 0, 0).
Definition WHITE : rgb := (255, 255, 255).
Definition BLUE : rgb := (0, 0, 255).
Definition YELLOW : rgb := (255, 255, 0).
Definition RED : rgb := (255, 0, 0).
Definition LEGO_BLUE : rgb := (0, 50, 150).
Definition LEGO_ORANGE : rgb := (255, 150, 40).
Definition VIOLET : rgb := (181, 126, 220).
Definition ORANGE : rgb := (255, 165, 0).
Definition GREEN : rgb := (0, 128, 0).
Definition GRAY : rgb := (128, 128, 128).
Definition IVORY : rgb := (255, 255, 240).
Definition BEIGE : rgb := (245, 245, 220).
Definition WHEAT : rgb := (245, 222, 179).
Definition TAN : rgb := (210, 180, 140).
Definition KHAKI : rgb := (195, 176, 145).
Definition SILVER : rgb := (192, 192, 192).
Definition CHARCOAL : rgb := (70, 70, 70).
Definition NAVYBLUE : rgb := (0, 0, 128).
Definition ROYALBLUE : rgb := (8, 76, 158).
Definition MEDIUMBLUE : rgb := (0, 0, 205).
Definition AZURE : rgb := (0, 127, 255).
Definition CYAN : rgb := (0, 255, 255).
Definition AQUAMARINE : rgb := (127, 255, 212).
Definition TEAL : rgb := (0, 128, 128).
Definition FORESTGREEN : rgb := (34, 139, 34).
Definition OLIVE : rgb := (128, 128, 0).
Definition LIME : rgb := (191, 255, 0).
Definition GOLD : rgb := (255, 215, 0).
Definition SALMON : rgb := (250, 128, 114).
Definition HOTPINK : rgb := (252, 15, 192).
Definition FUCHSIA : rgb := (255, 119, 255).
Definition PUCE : rgb := (204, 136, 153).
Definition PLUM : rgb := (132, 49, 121).
Definition INDIGO : rgb := (75, 0, 130).
Definition MAROON : rgb := (128, 0, 0).
Definition CRIMSON : rgb := (220, 20, 60).
Definition DEFAULT : rgb := (0, 0, 0).
Definition BACKGROUND : rgb := (0, 0, 0).
Definition MAYBE_BACKGROUND : rgb := (64, 64, 64).
Definition MAYBE_FOREGROUND : rgb := (192, 192, 192).
Definition FOREGROUND : rgb := (255, 255, 255).
Definition WATERSHED_FG : rgb := (255, 255, 255).
Definition WATERSHED_BG : rgb := (128, 128, 128).
Definition WATERSHED_UNSURE : rgb := (0, 0, 0).

Definition colors : list rgb :=
  [ BLACK; WHITE; BLUE; YELLOW; RED; VIOLET; ORANGE; GREEN; GRAY; IVORY;
    BEIGE; WHEAT; TAN; KHAKI; SILVER; CHARCOAL; NAVYBLUE; ROYALBLUE;
    MEDIUMBLUE; AZURE; CYAN; AQUAMARINE; TEAL; FORESTGREEN; OLIVE; LIME;
    GOLD; SALMON; HOTPINK; FUCHSIA; PUCE; PLUM; INDIGO; MAROON; CRIMSON;
    DEFAULT ].

(** [random.randint(a, b)] may return any integer r with a <= r <= b. *)
Definition randint (a b r : Z) : Prop := a <= r <= b.

(** [Color.random()], given the outcome r of the call to [randint]. *)
Definition random_at (r : Z) : res rgb := Py.getitem colors r.

(** c is a possible result of [Color.random()]. *)
Inductive random_returns (c : rgb) : Prop :=
| random_intro (r : Z) :
    randint 1 (Z.of_nat (length colors) - 1) r ->
    random_at r = Ok c ->
    random_returns c.

Definition rgb2hsv (color : rgb) : res (float * float * Z) :=
  let '(r, g, b) := color in
  hsv <- colorsys.rgb_to_hsv r g b ;;
  let '(h, s, v) := hsv in
  Ok ((h * 180)%float, (s * 255)%float, v).

Definition hue (color : rgb) : res float :=
  let '(r, g, b) := color in
  hsv <- colorsys.rgb_to_hsv r g b ;;
  let '(h, _, _) := hsv in
  Ok (h * 180)%float.

Definition hue2rgb (hue : float) : res rgb :=
  let hue := (hue / 180)%float in
  c <- colorsys.hsv_to_rgb hue 1 1 ;;
  let '(r, g, b) := c in
  r' <- Py.round (255 * r)%float ;;
  g' <- Py.round (255 * g)%float ;;
  b' <- Py.round (255 * b)%float ;;
  Ok (r', g', b').

Definition hue2bgr (hue : float) : res rgb :=
  c <- hue2rgb hue ;;
  let '(r, g, b) := c in
  Ok (b, g, r).

Definition average (color : rgb) : res Z :=
  let '(c0, c1, c2) := color in
  x <- Py.int_truediv (c0 + c1 + c2) 3 ;;
  Py.int_of_float x.

Definition lightness (color : rgb) : res Z :=
  let '(c0, c1, c2) := color in
  x <- Py.int_truediv (Z.max (Z.max c0 c1) c2 + Z.min (Z.min c0 c1) c2) 2 ;;
  Py.int_of_float x.

Definition luminosity (color : rgb) : res Z :=
  let '(c0, c1, c2) := color in
  Py.int_of_float
    (0.21 * Py.of_int c0 + 0.71 * Py.of_int c1 + 0.07 * Py.of_int c2)%float.

(** A well-formed colour: three integers, each in [0, 255]. *)
Definition channel (x : Z) : Prop := 0 <= x <= 255.
Definition valid (color : rgb) : Prop :=
  let '(c0, c1, c2) := color in channel c0 /\ channel c1 /\ channel c2.

End Color.

(** ** class ColorCurve *)

Module ColorCurve.

(** [np.minimum(a, b)] and [np.maximum(a, b)] on one element: a NaN in
    the first operand propagates. *)
Definition np_minimum (a b : float) : float :=
  if is_nan a then a else if (a <? b)%float then a else b.

Definition np_maximum (a b : float) : float :=
  if is_nan a then a else if (b <? a)%float then a else b.

(** [np.linspace(0, 255, 256)]: the step is exactly 1.0. *)
Definition interval : list float := map Py.of_int (Py.range 256).

(** The argument of the constructor, told apart as the test
    [type(vals) == UnivariateSpline] and its else branch do:
    - [Spline]: a fitted spline object whose class is exactly
      [UnivariateSpline], a callable evaluated element-wise on an array;
    - [Points]: an array of (x, y) pairs;
    - [SplineSubclass]: a fitted spline object of a subclass of
      [UnivariateSpline].  scipy resets the class of the object that
      [UnivariateSpline(x, y, s=...)] builds to
      [InterpolatedUnivariateSpline] when the fit interpolates the points
      (always so for s = 0) and to [LSQUnivariateSpline] when it is the
      least-squares polynomial, so the test is false for such an object,
      whatever it evaluates to. *)
Inductive vals : Type :=
| Spline (spline : float -> float)
| Points (pts : list (float * float))
| SplineSubclass (spline : float -> float).

Section Init.

(** scipy's [UnivariateSpline(x, y, s=1)]: it is not part of this
    repository, so the fit is a parameter.  It returns the fitted
    spline or raises on input it rejects. *)
Variable UnivariateSpline : list float -> list float -> res (float -> float).

(** [ColorCurve.__init__]; the result is [self.curve]. *)
Definition init (v : vals) : res (list float) :=
  match v with
  | Spline spline => Ok (map spline interval)
  | Points pts =>
      spline <- UnivariateSpline (map fst pts) (map snd pts) ;;
      Ok (map (fun x => np_maximum (np_minimum (spline x) 255) 0) interval)
  | SplineSubclass _ =>
      (* the else branch: [np.array(vals)] of an object that is no sequence
         is a 0-dimensional array, and [vals[:, 0]] has too many indices *)
      Raise IndexError
  end.

End Init.

(** An entry of the curve lies in [0, 255]. *)
Definition in_range (y : float) : bool := (0 <=? y)%float && (y <=? 255)%float.

(** The cubic through the control points (0,0), (85,255), (170,255) and
    (255,0), all inside the 255 x 255 square.  Four points leave a cubic
    spline no interior knot, so this polynomial is what a fit through
    these control points evaluates to; it rises to about 286.87 between
    the two middle points. *)
Definition arch (x : float) : float := (255 * x * (255 - x) / 14450)%float.

End ColorCurve.

(** ** class ColorMap *)

Module ColorMap.

(** The [color] argument: one colour (a flat tuple, [ndim == 1]) or a
    sequence of colours. *)
Inductive color_arg : Set :=
| Single (c : Color.rgb)
| Sequence (cs : list Color.rgb).

Record t : Set := mk {
  color : list Color.rgb;
  start_map : float;
  end_map : float;
  value_range : float;
  color_distance : float
}.

(** The colour sequence a constructor argument stands for. *)
Definition entries (color : color_arg) : list Color.rgb :=
  match color with
  | Single c => [c; Color.WHITE]
  | Sequence cs => cs
  end.

(** [ColorMap.__init__].  [as_array] is [np.array(color)] followed by
    the pairing of a lone colour with white; an empty tuple also has
    [ndim == 1] and fails at [color[0]]. *)
Definition as_array (color : color_arg) : res (list Color.rgb) :=
  match color with
  | Single c => Ok [c; Color.WHITE]
  | Sequence [] => Raise IndexError
  | Sequence cs => Ok cs
  end.

Definition init (color : color_arg) (start_map end_map : float) : res t :=
  color <- as_array color ;;
  let value_range := (end_map - start_map)%float in
  color_distance <-
    Py.truediv value_range (Py.of_int (Z.of_nat (length color) - 1)) ;;
  Ok (mk color start_map end_map value_range color_distance).

(** [self.color[index]*(1-alpha) + self.color[index+1]*alpha] on the
    int64 rows ci and cj. *)
Definition blend (ci cj : Color.rgb) (alpha : float) : float * float * float :=
  let '(r0, g0, b0) := ci in
  let '(r1, g1, b1) := cj in
  ((Py.of_int r0 * (1 - alpha) + Py.of_int r1 * alpha)%float,
   (Py.of_int g0 * (1 - alpha) + Py.of_int g1 * alpha)%float,
   (Py.of_int b0 * (1 - alpha) + Py.of_int b1 * alpha)%float).

(** The clamping at the head of [__getitem__]. *)
Definition clamp (self : t) (val : float) : float :=
  if (end_map self <? val)%float then end_map self
  else if (val <? start_map self)%float then start_map self
  else val.

(** [int(color[0]), int(color[1]), int(color[2])] *)
Definition to_ints (c : float * float * float) : res Color.rgb :=
  let '(x, y, z) := c in
  r <- Py.int_of_float x ;;
  g <- Py.int_of_float y ;;
  b <- Py.int_of_float z ;;
  Ok (r, g, b).

(** [ColorMap.__getitem__] *)
Definition getitem (self : t) (val : float) : res Color.rgb :=
  let val := clamp self val in
  value <- Py.truediv (val - start_map self)%float (color_distance self) ;;
  i <- Py.int_of_float value ;;
  let alpha := (value - Py.of_int i)%float in
  let index := i in
  if index =? Z.of_nat (length (color self)) - 1 then
    Py.getitem (color self) index
  else
    ci <- Py.getitem (color self) index ;;
    cj <- Py.getitem (color self) (index + 1) ;;
    to_ints (blend ci cj alpha).

(** Eight palette colours, from red to violet. *)
Definition rainbow : list Color.rgb :=
  [ Color.RED; Color.ORANGE; Color.YELLOW; Color.GREEN; Color.CYAN;
    Color.BLUE; Color.INDIGO; Color.VIOLET ].

(** [ColorMap(color, start_map, end_map)[val]] *)
Definition lookup (color : color_arg) (start_map end_map val : float) : res Color.rgb :=
  self <- init color start_map end_map ;;
  getitem self val.

End ColorMap.

(** ** Decision procedures

    Boolean checks over the finitely many inputs a property ranges over;
    the proofs below evaluate them. *)

Module Checks.

Definition byte (z : Z) : bool := (0 <=? z) && (z <=? 255).

Definition res_byte (r : res Z) : bool :=
  match r with
  | Ok z => byte z
  | Raise _ => false
  end.

(** [int(n / d)] on ints n and d. *)
Definition int_quotient (n d : Z) : res Z :=
  x <- Py.int_truediv n d ;;
  Py.int_of_float x.

(** [Color.average] depends on the sum of the channels only, and
    [Color.lightness] on the sum of the largest and the smallest. *)
Definition average_ok (n : Z) : bool := res_byte (int_quotient n 3).

Definition lightness_ok (n : Z) : bool := res_byte (int_quotient n 2).

(** 0 <= x < 256, the floats whose truncation is in [0, 255]. *)
Definition below_256 (x : float) : bool := (0 <=? x)%float && (x <? 256)%float.

(** [Color.luminosity], one red level at a time: the partial sums are
    shared between the colours that have them in common. *)
Definition blues : list float :=
  map (fun b => 0.07 * Py.of_int b)%float (Py.range 256).

Definition lum_cell (t pb : float) : bool := below_256 (t + pb)%float.

Definition lum_col (pr : float) (g : Z) : bool :=
  let t := (pr + 0.71 * Py.of_int g)%float in
  forallb (lum_cell t) blues.

Definition lum_row (r : Z) : bool :=
  let pr := (0.21 * Py.of_int r)%float in
  forallb (lum_col pr) (Py.range 256).

(** ** The hue round trip

    Two hues on the 0..180 scale agree up to the rounding of one channel:
    half a unit of a channel out of 255 moves the hue by at most
    30 * 0.5 / 255 = 1/17, a little under 0.06; the scale wraps at 180. *)
Definition hue_close (h h' : float) : bool :=
  let d := abs (h' - h)%float in
  (d <=? 0.06)%float || (180 - 0.06 <=? d)%float.

(** [x % 1.0] without the conversion to an integer when -1 < x < 1. *)
Definition mod1_small (x : float) : float :=
  if (-1 <? x)%float && (x <? 1)%float then
    if (x =? 0)%float then 0%float
    else if (x <? 0)%float then (x + 1)%float else x
  else Py.mod1 x.

(** [colorsys.rgb_to_hsv] with [mod1_small] for [Py.mod1]. *)
Definition rgb_to_hsv_small (r g b : Z) : res (float * float * Z) :=
  let maxc := Z.max (Z.max r g) b in
  let minc := Z.min (Z.min r g) b in
  let rangec := maxc - minc in
  let v := maxc in
  if minc =? maxc then Ok (0%float, 0%float, v)
  else
    s <- Py.int_truediv rangec maxc ;;
    rc <- Py.int_truediv (maxc - r) rangec ;;
    gc <- Py.int_truediv (maxc - g) rangec ;;
    bc <- Py.int_truediv (maxc - b) rangec ;;
    let h :=
      if r =? maxc then (bc - gc)%float
      else if g =? maxc then (2 + rc - bc)%float
      else (4 + gc - rc)%float in
    Ok (mod1_small (h / 6)%float, s, v).

(** [Color.hue2rgb] with the two constant channels (255 * 1 and
    255 * (1 * (1 - 1))) already rounded: only the middle one depends on
    the hue. *)
Definition hue2rgb_mid (hue : float) : res Color.rgb :=
  let h := (hue / 180)%float in
  i <- Py.int_of_float (h * 6)%float ;;
  let f := (h * 6 - Py.of_int i)%float in
  let q := (1 * (1 - 1 * f))%float in
  let t := (1 * (1 - 1 * (1 - f)))%float in
  match i mod 6 with
  | 0 => g <- Py.round (255 * t)%float ;; Ok (255, g, 0)
  | 1 => r <- Py.round (255 * q)%float ;; Ok (r, 255, 0)
  | 2 => b <- Py.round (255 * t)%float ;; Ok (0, 255, b)
  | 3 => g <- Py.round (255 * q)%float ;; Ok (0, g, 255)
  | 4 => r <- Py.round (255 * t)%float ;; Ok (r, 0, 255)
  | 5 => b <- Py.round (255 * q)%float ;; Ok (255, 0, b)
  | _ => Raise TypeError
  end.

(** The round trip on one colour: hue, back to RGB, and the hue,
    saturation and value of the result. *)
Definition round_trip_fast (c : Color.rgb) : bool :=
  let '(r, g, b) := c in
  match rgb_to_hsv_small r g b with
  | Ok (h0, _, _) =>
      let h := (h0 * 180)%float in
      match hue2rgb_mid h with
      | Ok (r', g', b') =>
          (Z.max (Z.max r' g') b' =? 255) && (Z.min (Z.min r' g') b' =? 0)
          && match rgb_to_hsv_small r' g' b' with
             | Ok (h1, s1, v1) =>
                 (s1 * 255 =? 255)%float && (v1 =? 255) && hue_close h (h1 * 180)%float
             | Raise _ => false
             end
      | Raise _ => false
      end
  | Raise _ => false
  end.

(** The round trip as a property of the hue h alone. *)
Definition round_trip_holds (h : float) : Prop :=
  exists r' g' b' h' s',
    Color.hue2rgb h = Ok (r', g', b')
    /\ Z.max (Z.max r' g') b' = 255
    /\ Z.min (Z.min r' g') b' = 0
    /\ Color.rgb2hsv (r', g', b') = Ok (h', s', 255)
    /\ (s' =? 255)%float = true
    /\ Color.hue (r', g', b') = Ok h'
    /\ hue_close h h' = true.

(** The colours whose smallest channel is 0, by rows. *)
Definition row_r (g : Z) : bool :=
  forallb (fun b => round_trip_fast (0, g, b)) (Py.range 256).

Definition row_g (r : Z) : bool :=
  forallb (fun b => round_trip_fast (r, 0, b)) (Py.range 256).

Definition row_b (r : Z) : bool :=
  forallb (fun g => round_trip_fast (r, g, 0)) (Py.range 256).

End Checks.

(** ** Further decision procedures *)

Module Ranges.

(** [int(n / d)] agrees with the integer quotient. *)
Definition same_quotient (d n : Z) : bool :=
  match Checks.int_quotient n d with
  | Ok z => z =? n / d
  | Raise _ => false
  end.

(** 0 <= x < 253, the floats whose truncation is in [0, 252]. *)
Definition below_253 (x : float) : bool := (0 <=? x)%float && (x <? 253)%float.

Definition lum_cell (t pb : float) : bool := below_253 (t + pb)%float.

Definition lum_col (pr : float) (g : Z) : bool :=
  let t := (pr + 0.71 * Py.of_int g)%float in
  forallb (lum_cell t) Checks.blues.

Definition lum_row (r : Z) : bool :=
  let pr := (0.21 * Py.of_int r)%float in
  forallb (lum_col pr) (Py.range 256).

(** The hue that [Color.rgb2hsv] and [Color.hue] return lies in [0, 180). *)
Definition hue_in_range (c : Color.rgb) : bool :=
  let '(r, g, b) := c in
  match Checks.rgb_to_hsv_small r g b with
  | Ok (h, _, _) => (0 <=? h * 180)%float && (h * 180 <? 180)%float
  | Raise _ => false
  end.

Definition hue_row_r (g : Z) : bool :=
  forallb (fun b => hue_in_range (0, g, b)) (Py.range 256).

Definition hue_row_g (r : Z) : bool :=
  forallb (fun b => hue_in_range (r, 0, b)) (Py.range 256).

Definition hue_row_b (r : Z) : bool :=
  forallb (fun g => hue_in_range (r, g, 0)) (Py.range 256).

(** The saturation [rangec / maxc * 255] lies in [0, 255] whenever
    0 < rangec <= maxc. *)
Definition sat_in_range (maxc rangec : Z) : bool :=
  if (0 <? rangec) && (rangec <=? maxc) then
    match Py.int_truediv rangec maxc with
    | Ok s => (0 <=? s * 255)%float && (s * 255 <=? 255)%float
    | Raise _ => false
    end
  else true.

Definition sat_row (maxc : Z) : bool :=
  forallb (sat_in_range maxc) (Py.range 256).

(** The blend at alpha = 0: the second colour contributes a zero and the
    first comes back as it was. *)
Definition second_channel_dropped (b : Z) : bool :=
  PrimFloat.Leibniz.eqb (Py.of_int b * 0)%float 0%float.

Definition first_channel_kept (a : Z) : bool :=
  match Py.int_of_float (Py.of_int a * (1 - 0) + 0)%float with
  | Ok z => z =? a
  | Raise _ => false
  end.

(** [Color.hue2rgb] on an integer hue: a colour with largest channel 255
    and smallest channel 0 whose hue is close to the one given. *)
Definition integer_hue_ok (h : Z) : bool :=
  match Color.hue2rgb (Py.of_int h) with
  | Ok (r, g, b) =>
      (Z.max (Z.max r g) b =? 255) && (Z.min (Z.min r g) b =? 0)
      && match Color.hue (r, g, b) with
         | Ok h' => Checks.hue_close (Py.of_int h) h'
         | Raise _ => false
         end
  | Raise _ => false
  end.

(** [Color.hue2rgb] on the hue -1 - n: the green channel is negative. *)
Definition negative_hue_green (n : Z) : bool :=
  match Color.hue2rgb (Py.of_int (- 1 - n)) with
  | Ok (_, g, _) => g <? 0
  | Raise _ => false
  end.

(** [Color.valid] as a boolean. *)
Definition valid_b (c : Color.rgb) : bool :=
  let '(r, g, b) := c in Checks.byte r && Checks.byte g && Checks.byte b.

End Ranges.

(** * Properties *)

(** ** Facts about lists and ranges *)

Lemma range_In (n : nat) (z : Z) : 0 <= z < Z.of_nat n -> In z (Py.range n).
Proof.
  intros H. unfold Py.range. apply in_map_iff. exists (Z.to_nat z). split.
  - lia.
  - apply in_seq. lia.
Qed.

Lemma getitem_nth {A : Type} (l : list A) (i : Z) (a : A) :
  0 <= i -> nth_error l (Z.to_nat i) = Some a -> Py.getitem l i = Ok a.
Proof.
  intros Hi Hn. unfold Py.getitem.
  assert (Hlt : (Z.to_nat i < length l)%nat)
    by (apply nth_error_Some; rewrite Hn; discriminate).
  replace (i <? 0) with false by (symmetry; apply Z.ltb_ge; lia).
  replace (0 <=? i) with true by (symmetry; apply Z.leb_le; lia).
  replace (i <? Z.of_nat (length l)) with true by (symmetry; apply Z.ltb_lt; lia).
  simpl. now rewrite Hn.
Qed.

Lemma getitem_Ok_nonneg {A : Type} (l : list A) (i : Z) (a : A) :
  0 <= i -> Py.getitem l i = Ok a ->
  0 <= i < Z.of_nat (length l) /\ nth_error l (Z.to_nat i) = Some a.
Proof.
  intros Hi. unfold Py.getitem.
  replace (i <? 0) with false by (symmetry; apply Z.ltb_ge; lia).
  destruct (0 <=? i) eqn:H0; simpl; [| discriminate].
  destruct (i <? Z.of_nat (length l)) eqn:H1; [| discriminate].
  destruct (nth_error l (Z.to_nat i)) eqn:Hn; [| discriminate].
  intros [= ->]. split; [split; [lia | now apply Z.ltb_lt] | reflexivity].
Qed.

(** ** Facts about binary64 *)

Module FloatFacts.

Lemma digits2_pos_bound (p : positive) (n : Z) :
  0 <= n -> (Zpos (digits2_pos p) <= n <-> Zpos p < 2 ^ n).
Proof.
  revert n. induction p as [p IH | p IH |]; intros n Hn; cbn [digits2_pos].
  - rewrite Pos2Z.inj_succ.
    destruct (Z.eq_dec n 0) as [-> | Hz]; [cbn; lia |].
    specialize (IH (n - 1) ltac:(lia)).
    replace (2 ^ n) with (2 * 2 ^ (n - 1))
      by (rewrite <- Z.pow_succ_r by lia; f_equal; lia).
    rewrite Pos2Z.inj_xI. lia.
  - rewrite Pos2Z.inj_succ.
    destruct (Z.eq_dec n 0) as [-> | Hz]; [cbn; lia |].
    specialize (IH (n - 1) ltac:(lia)).
    replace (2 ^ n) with (2 * 2 ^ (n - 1))
      by (rewrite <- Z.pow_succ_r by lia; f_equal; lia).
    rewrite Pos2Z.inj_xO. lia.
  - destruct (Z.eq_dec n 0) as [-> | Hz]; [cbn; lia |].
    assert (2 ^ 1 <= 2 ^ n) by (apply Z.pow_le_mono_r; lia).
    change (2 ^ 1) with 2 in *. lia.
Qed.

Lemma digits2_pos_lower (p : positive) :
  2 ^ (Zpos (digits2_pos p) - 1) <= Zpos p.
Proof.
  destruct (Z.le_gt_cases (2 ^ (Zpos (digits2_pos p) - 1)) (Zpos p)) as [H | H];
    [exact H |].
  apply digits2_pos_bound in H; lia.
Qed.

Lemma iter_xO_spec (q p : positive) :
  Zpos (Pos.iter xO p q) = Zpos p * 2 ^ Zpos q.
Proof.
  revert p. induction q as [| q IH] using Pos.peano_ind; intros p.
  - cbn. lia.
  - rewrite Pos.iter_succ, Pos2Z.inj_xO, IH, Pos2Z.inj_succ, Z.pow_succ_r by lia.
    ring.
Qed.

Lemma iter_xO_digits (q p : positive) :
  digits2_pos (Pos.iter xO p q) = (digits2_pos p + q)%positive.
Proof.
  revert p. induction q as [| q IH] using Pos.peano_ind; intros p.
  - cbn. lia.
  - rewrite Pos.iter_succ. cbn [digits2_pos]. rewrite IH. lia.
Qed.

(** A valid finite binary64 has at most 53 significant bits and an
    exponent of at least -1074; above that exponent it has exactly 53. *)
Lemma bounded_inv (m : positive) (e : Z) :
  bounded prec emax m e = true ->
  Zpos (digits2_pos m) <= 53 /\ -1074 <= e <= 971 /\
  (-1074 < e -> Zpos (digits2_pos m) = 53).
Proof.
  unfold bounded, canonical_mantissa, fexp, SpecFloat.emin, prec, emax.
  intros H. apply andb_true_iff in H as [H1 H2].
  apply Z.eqb_eq in H1. apply Z.leb_le in H2. lia.
Qed.

Lemma valid_finite (x : float) (s : bool) (m : positive) (e : Z) :
  Prim2SF x = S754_finite s m e -> bounded prec emax m e = true.
Proof.
  intros H. pose proof (Prim2SF_valid x) as V. now rewrite H in V.
Qed.

End FloatFacts.

Module CompareFacts.

Import FloatFacts.

Lemma SFcompare_swap (x y : spec_float) (c : comparison) :
  SFcompare x y = Some c -> SFcompare y x = Some (CompOpp c).
Proof.
  destruct x as [sx | sx | | sx mx ex], y as [sy | sy | | sy my ey];
    cbn; try discriminate;
    try (destruct sx; intros [= <-]; reflexivity);
    try (destruct sy; intros [= <-]; reflexivity);
    try (destruct sx, sy; intros [= <-]; reflexivity).
  destruct sx, sy; intros [= <-]; try reflexivity;
    rewrite (Z.compare_antisym ex ey);
    destruct (ex ?= ey) eqn:E; cbn; try reflexivity;
    rewrite (Pos.compare_cont_antisym mx my Eq); reflexivity.
Qed.

Lemma SFcompare_refl (x : spec_float) :
  x <> S754_nan -> SFcompare x x = Some Eq.
Proof.
  destruct x as [s | s | | s m e]; cbn; intros H; try congruence;
    try (destruct s; reflexivity).
  destruct s; rewrite Z.compare_refl;
    change (Pos.compare_cont Eq m m) with (Pos.compare m m);
    now rewrite Pos.compare_refl.
Qed.

Lemma ltb_leb (x y : float) : (x <? y)%float = true -> (x <=? y)%float = true.
Proof.
  rewrite ltb_spec, leb_spec. unfold SFltb, SFleb.
  destruct (SFcompare (Prim2SF x) (Prim2SF y)) as [[ | | ] |]; congruence.
Qed.

Lemma leb_not_ltb (x y : float) : (x <=? y)%float = true -> (y <? x)%float = false.
Proof.
  rewrite ltb_spec, leb_spec. unfold SFltb, SFleb.
  destruct (SFcompare (Prim2SF x) (Prim2SF y)) as [c |] eqn:E; [| discriminate].
  rewrite (SFcompare_swap _ _ _ E). destruct c; cbn; congruence.
Qed.

Lemma ltb_not_ltb (x y : float) : (x <? y)%float = true -> (y <? x)%float = false.
Proof. intros H. now apply leb_not_ltb, ltb_leb. Qed.

Lemma ltb_irrefl (x : float) : (x <? x)%float = false.
Proof.
  destruct (x <? x)%float eqn:E; [| reflexivity].
  now rewrite (ltb_not_ltb _ _ E) in E.
Qed.

Lemma is_nan_spec (x : float) : is_nan x = true <-> Prim2SF x = S754_nan.
Proof.
  unfold is_nan. rewrite eqb_spec. unfold SFeqb. split.
  - intros H. destruct (Prim2SF x) eqn:E; try reflexivity;
      rewrite SFcompare_refl in H by discriminate; discriminate.
  - intros ->. reflexivity.
Qed.

Lemma not_ltb_leb (x y : float) :
  is_nan x = false -> is_nan y = false ->
  (x <? y)%float = false -> (y <=? x)%float = true.
Proof.
  intros Hx Hy. rewrite ltb_spec, leb_spec. unfold SFltb, SFleb.
  destruct (SFcompare (Prim2SF x) (Prim2SF y)) as [c |] eqn:E.
  - rewrite (SFcompare_swap _ _ _ E). destruct c; cbn; congruence.
  - exfalso.
    assert (Prim2SF x <> S754_nan)
      by (intros N; apply is_nan_spec in N; congruence).
    assert (Prim2SF y <> S754_nan)
      by (intros N; apply is_nan_spec in N; congruence).
    destruct (Prim2SF x) as [| | |? ? ?], (Prim2SF y) as [| | |? ? ?];
      cbn in E; congruence.
Qed.

End CompareFacts.

Module ArithFacts.

Import FloatFacts CompareFacts.

Lemma binary_round_aux_exact (s : bool) (m : positive) (e : Z) :
  Zpos (digits2_pos m) = 53 -> -1074 <= e <= 971 ->
  binary_round_aux prec emax s (Zpos m) e loc_Exact = S754_finite s m e.
Proof.
  intros Hd He.
  assert (Hs : forall m', Zpos (digits2_pos m') = 53 ->
             shr_fexp prec emax (Zpos m') e loc_Exact
             = (Build_shr_record (Zpos m') false false, e)).
  { intros m' Hd'. unfold shr_fexp, fexp, SpecFloat.emin, prec, emax.
    cbn [Zdigits2 shr_record_of_loc]. rewrite Hd'.
    replace (Z.max (53 + e - 53) (3 - 1024 - 53) - e) with 0 by lia.
    reflexivity. }
  unfold binary_round_aux. rewrite (Hs m Hd). cbn [shr_m loc_of_shr_record round_nearest_even].
  rewrite (Hs m Hd). cbn [shr_m].
  replace (e <=? emax - prec) with true
    by (symmetry; apply Z.leb_le; unfold emax, prec; lia).
  reflexivity.
Qed.

(** A positive integer below 2^53 is represented exactly, with a 53-bit
    significand. *)
Lemma binary_round_int (p : positive) :
  Zpos p < 2 ^ 53 ->
  exists m e, binary_round prec emax false p 0 = S754_finite false m e
              /\ Zpos m = Zpos p * 2 ^ (- e) /\ -52 <= e <= 0.
Proof.
  intros Hp. apply digits2_pos_bound in Hp; [| lia].
  unfold binary_round, fexp, SpecFloat.emin, prec, emax, shl_align.
  replace (Z.max (Zpos (digits2_pos p) + 0 - 53) (3 - 1024 - 53))
    with (Zpos (digits2_pos p) - 53) by lia.
  destruct (Zpos (digits2_pos p) - 53 - 0) as [| q | q] eqn:E; [| lia |].
  - exists p, 0. split; [| cbn; lia].
    replace (Zpos (digits2_pos p) - 53) with 0 by lia.
    apply binary_round_aux_exact; lia.
  - exists (Pos.iter xO p q), (Zpos (digits2_pos p) - 53). split.
    + apply binary_round_aux_exact; [| lia].
      rewrite iter_xO_digits. lia.
    + rewrite iter_xO_spec.
      replace (- (Zpos (digits2_pos p) - 53)) with (Zpos q) by lia. lia.
Qed.

Lemma of_int_pos (k : Z) :
  0 < k < 2 ^ 53 ->
  exists m e, Prim2SF (Py.of_int k) = S754_finite false m e.
Proof.
  intros Hk. destruct k as [| p | p]; try lia. cbn [Py.of_int].
  unfold Py.of_nonneg.
  replace (Zpos p <? 9223372036854775808) with true.
  2:{ symmetry. apply Z.ltb_lt.
      assert (2 ^ 53 < 9223372036854775808) by reflexivity. lia. }
  rewrite of_uint63_spec, Uint63.of_Z_spec.
  rewrite Z.mod_small.
  2:{ assert (2 ^ 53 < Uint63.wB) by reflexivity. lia. }
  cbn [binary_normalize].
  destruct (binary_round_int p) as (m & e & H & _); [lia |].
  eauto.
Qed.

Lemma finite_nonzero (b : float) (s : bool) (m : positive) (e : Z) :
  Prim2SF b = S754_finite s m e -> (b =? 0)%float = false.
Proof.
  intros H. rewrite eqb_spec, H. destruct s; reflexivity.
Qed.

(** True division of ints does not raise on a positive divisor. *)
Lemma int_truediv_ok (a b : Z) :
  0 < b < 2 ^ 53 ->
  Py.int_truediv a b = Ok (Py.of_int a / Py.of_int b)%float.
Proof.
  intros Hb. destruct (of_int_pos b Hb) as (m & e & H).
  unfold Py.int_truediv, Py.truediv. now rewrite (finite_nonzero _ _ _ _ H).
Qed.

(** x - x is +0.0 for every number x. *)
Lemma sub_diag (x : float) : Py.finite x = true -> (x - x)%float = 0%float.
Proof.
  unfold Py.finite. intros H. apply Prim2SF_inj. rewrite sub_spec.
  destruct (Prim2SF x) as [s | s | | s m e]; try discriminate.
  - destruct s; reflexivity.
  - unfold SF64sub, SFsub. rewrite Z.sub_diag. reflexivity.
Qed.

(** A zero divided by a non-zero number is a zero. *)
Lemma zero_div (a b : float) (s : bool) (m : positive) (e : Z) :
  (a =? 0)%float = true -> is_nan a = false ->
  Prim2SF b = S754_finite s m e ->
  (a / b =? 0)%float = true.
Proof.
  intros Ha Hn Hb.
  assert (Hz : exists sa, Prim2SF a = S754_zero sa).
  { rewrite eqb_spec in Ha. unfold SFeqb in Ha.
    destruct (Prim2SF a) as [sa | sa | | sa ma ea] eqn:E.
    - eauto.
    - destruct sa; discriminate.
    - discriminate.
    - destruct sa; discriminate. }
  destruct Hz as [sa Hz].
  rewrite eqb_spec, div_spec, Hz, Hb. reflexivity.
Qed.

End ArithFacts.

(** ** Color.random *)

Module RandomFacts.

(** C7: whatever [randint(1, len(colors) - 1)] returns, [Color.random()]
    returns an element of the class-level list [Color.colors], taken at an
    index other than 0: the entry BLACK at index 0 is never selected, and
    the call never fails. *)
Theorem random_member_not_index_zero (r : Z) :
  Color.randint 1 (Z.of_nat (length Color.colors) - 1) r ->
  exists c, Color.random_at r = Ok c
            /\ r <> 0
            /\ nth_error Color.colors (Z.to_nat r) = Some c
            /\ In c Color.colors.
Proof.
  unfold Color.randint. intros Hr.
  destruct (nth_error Color.colors (Z.to_nat r)) as [c |] eqn:E.
  - exists c. repeat split.
    + apply getitem_nth; [lia | exact E].
    + lia.
    + eapply nth_error_In; eassumption.
  - apply nth_error_None in E. lia.
Qed.

Lemma random_member_not_index_zero_witness :
  exists c, Color.random_at 1 = Ok c /\ 1 <> 0
            /\ nth_error Color.colors (Z.to_nat 1) = Some c
            /\ In c Color.colors.
Proof.
  apply (random_member_not_index_zero 1). unfold Color.randint. simpl. lia.
Defined.

(** Every possible result is a member of the palette. *)
Lemma random_returns_member (c : Color.rgb) :
  Color.random_returns c -> In c Color.colors.
Proof.
  intros [r Hr Hc]. unfold Color.randint in Hr. unfold Color.random_at in Hc.
  assert (H0 : 0 <= r) by lia.
  destruct (getitem_Ok_nonneg Color.colors r c H0 Hc) as [_ Hn].
  eapply nth_error_In. exact Hn.
Qed.

(** C8: the black triple is still a possible result of [Color.random()]:
    [Color.DEFAULT] is (0, 0, 0), it is the last element of
    [Color.colors], and its index, len(colors) - 1, is the upper end of
    the sampled range. *)
Theorem random_can_return_black :
  Color.DEFAULT = (0, 0, 0)
  /\ last Color.colors Color.WHITE = Color.DEFAULT
  /\ Color.randint 1 (Z.of_nat (length Color.colors) - 1)
       (Z.of_nat (length Color.colors) - 1)
  /\ Color.random_at (Z.of_nat (length Color.colors) - 1) = Ok (0, 0, 0)
  /\ Color.random_returns (0, 0, 0).
Proof.
  assert (Hr : Color.randint 1 (Z.of_nat (length Color.colors) - 1)
                 (Z.of_nat (length Color.colors) - 1))
    by (unfold Color.randint; simpl; lia).
  repeat split; try reflexivity; try apply Hr.
  exact (Color.random_intro _ _ Hr eq_refl).
Qed.

End RandomFacts.

(** ** ColorMap: the degenerate range *)

Module DegenerateFacts.

Import FloatFacts CompareFacts ArithFacts.

Lemma as_array_entries (color : ColorMap.color_arg) :
  1 <= Z.of_nat (length (ColorMap.entries color)) ->
  ColorMap.as_array color = Ok (ColorMap.entries color).
Proof.
  destruct color as [c | [| c cs]]; cbn; intros H; try reflexivity. lia.
Qed.

(** C6: a map built with start_map == end_map is constructed without
    complaint (nothing guards the empty range), its color_distance is
    zero, and every lookup raises ZeroDivisionError instead of returning a
    colour. *)
Theorem degenerate_range_raises (color : ColorMap.color_arg) (s val : float) :
  Py.finite s = true ->
  2 <= Z.of_nat (length (ColorMap.entries color)) < 2 ^ 53 ->
  exists self,
    ColorMap.init color s s = Ok self
    /\ ColorMap.color_distance self = (0 / Py.of_int (Z.of_nat (length (ColorMap.entries color)) - 1))%float
    /\ (ColorMap.color_distance self =? 0)%float = true
    /\ ColorMap.getitem self val = Raise ZeroDivisionError.
Proof.
  intros Hs Hlen.
  set (k := Z.of_nat (length (ColorMap.entries color)) - 1) in *.
  destruct (of_int_pos k) as (m & e & Hk); [unfold k; lia |].
  pose proof (finite_nonzero _ _ _ _ Hk) as Hnz.
  assert (Hcd : (0 / Py.of_int k =? 0)%float = true)
    by (eapply zero_div; [reflexivity | reflexivity | exact Hk]).
  assert (Hinit : ColorMap.init color s s
                  = Ok (ColorMap.mk (ColorMap.entries color) s s 0%float
                          (0 / Py.of_int k)%float)).
  { unfold ColorMap.init.
    rewrite as_array_entries by lia.
    cbn [bind]. rewrite (sub_diag s Hs). fold k.
    unfold Py.truediv. rewrite Hnz. reflexivity. }
  eexists. split; [exact Hinit |]. cbn [ColorMap.color_distance].
  split; [reflexivity |]. split; [exact Hcd |].
  unfold ColorMap.getitem. cbn [ColorMap.color_distance ColorMap.start_map].
  unfold Py.truediv at 1. rewrite Hcd. reflexivity.
Qed.

Lemma degenerate_range_raises_witness :
  exists self,
    ColorMap.init (ColorMap.Sequence [Color.BLACK; Color.WHITE]) 10 10 = Ok self
    /\ ColorMap.color_distance self = (0 / Py.of_int (Z.of_nat (length (ColorMap.entries (ColorMap.Sequence [Color.BLACK; Color.WHITE]))) - 1))%float
    /\ (ColorMap.color_distance self =? 0)%float = true
    /\ ColorMap.getitem self 10 = Raise ZeroDivisionError.
Proof.
  apply (degenerate_range_raises (ColorMap.Sequence [Color.BLACK; Color.WHITE]) 10 10).
  - vm_compute. reflexivity.
  - simpl. lia.
Defined.

End DegenerateFacts.

(** ** Color.average, Color.lightness, Color.luminosity *)

Module GreyFacts.

Import FloatFacts CompareFacts ArithFacts.

Lemma byte_spec (z : Z) : Checks.byte z = true <-> 0 <= z <= 255.
Proof. unfold Checks.byte. rewrite andb_true_iff, Z.leb_le, Z.leb_le. tauto. Qed.

Lemma res_byte_spec (r : res Z) :
  Checks.res_byte r = true -> exists z, r = Ok z /\ 0 <= z <= 255.
Proof.
  destruct r as [z | e]; cbn; [| discriminate].
  intros H. exists z. split; [reflexivity | now apply byte_spec].
Qed.

Lemma lt_2p52_cases (m : positive) (e : Z) :
  SFltb (S754_finite false m e) (S754_finite false 4503599627370496 (-44)) = true ->
  e < -44 \/ (e = -44 /\ Zpos m < 2 ^ 52).
Proof.
  unfold SFltb. cbn [SFcompare].
  destruct (e ?= -44) eqn:C.
  - intros H. right. split; [apply Z.compare_eq; exact C |].
    assert (P : (m < 4503599627370496)%positive).
    { unfold Pos.lt, Pos.compare. revert H.
      destruct (Pos.compare_cont Eq m 4503599627370496); cbn; congruence. }
    exact P.
  - intros _. left. apply Z.compare_lt_iff. exact C.
  - discriminate.
Qed.

(** Truncating a float in [0, 256) gives an integer in [0, 255]. *)
Lemma int_of_float_below_256 (x : float) :
  Checks.below_256 x = true ->
  exists z, Py.int_of_float x = Ok z /\ 0 <= z <= 255.
Proof.
  unfold Checks.below_256. rewrite andb_true_iff, leb_spec, ltb_spec.
  replace (Prim2SF 0) with (S754_zero false) by (vm_compute; reflexivity).
  replace (Prim2SF 256) with (S754_finite false 4503599627370496 (-44))
    by (vm_compute; reflexivity).
  unfold Py.int_of_float. intros [H0 H1].
  destruct (Prim2SF x) as [s | s | | s m e] eqn:E.
  - exists 0. split; [reflexivity | lia].
  - destruct s; discriminate.
  - discriminate.
  - destruct s; [discriminate |]. cbn [cond_Zopp].
    exists (Z.shiftl (Zpos m) e). split; [reflexivity |].
    apply lt_2p52_cases in H1.
    destruct (bounded_inv m e (valid_finite x _ _ _ E)) as (Hd & He & _).
    apply digits2_pos_bound in Hd; [| lia].
    rewrite <- Z.shiftr_opp_r, Z.shiftr_div_pow2 by lia.
    assert (Hp : 0 < 2 ^ (- e)) by (apply Z.pow_pos_nonneg; lia).
    split; [apply Z.div_pos; lia |].
    assert (Zpos m / 2 ^ (- e) < 256); [| lia].
    apply Z.div_lt_upper_bound; [exact Hp |].
    destruct H1 as [Hlt | [-> Hm]].
    + replace (2 ^ (- e)) with (2 ^ 45 * 2 ^ (- e - 45))
        by (rewrite <- Z.pow_add_r by lia; f_equal; lia).
      assert (0 < 2 ^ (- e - 45)) by (apply Z.pow_pos_nonneg; lia).
      replace (2 ^ 53) with (2 ^ 45 * 256) in Hd by reflexivity.
      nia.
    + replace (2 ^ (- -44) * 256) with (2 ^ 52) by reflexivity. exact Hm.
Qed.

Lemma forallb_In {A : Type} (f : A -> bool) (l : list A) (x : A) :
  forallb f l = true -> In x l -> f x = true.
Proof. intros H. now apply forallb_forall. Qed.

Lemma average_check : forallb Checks.average_ok (Py.range 766) = true.
Proof. vm_compute. reflexivity. Qed.

Lemma lightness_check : forallb Checks.lightness_ok (Py.range 511) = true.
Proof. vm_compute. reflexivity. Qed.

Lemma luminosity_check : forallb Checks.lum_row (Py.range 256) = true.
Proof. vm_compute. reflexivity. Qed.

Lemma average_in_range (c : Color.rgb) :
  Color.valid c -> exists z, Color.average c = Ok z /\ 0 <= z <= 255.
Proof.
  destruct c as [[c0 c1] c2]. unfold Color.valid, Color.channel.
  intros (H0 & H1 & H2). apply res_byte_spec.
  apply (forallb_In _ _ (c0 + c1 + c2) average_check).
  apply range_In. cbn. lia.
Qed.

Lemma lightness_in_range (c : Color.rgb) :
  Color.valid c -> exists z, Color.lightness c = Ok z /\ 0 <= z <= 255.
Proof.
  destruct c as [[c0 c1] c2]. unfold Color.valid, Color.channel.
  intros (H0 & H1 & H2). apply res_byte_spec.
  apply (forallb_In _ _ (Z.max (Z.max c0 c1) c2 + Z.min (Z.min c0 c1) c2)
           lightness_check).
  apply range_In. cbn. lia.
Qed.

Lemma luminosity_in_range (c : Color.rgb) :
  Color.valid c -> exists z, Color.luminosity c = Ok z /\ 0 <= z <= 255.
Proof.
  destruct c as [[c0 c1] c2]. unfold Color.valid, Color.channel.
  intros (H0 & H1 & H2). apply int_of_float_below_256.
  assert (I0 : In c0 (Py.range 256)) by (apply range_In; cbn; lia).
  assert (I1 : In c1 (Py.range 256)) by (apply range_In; cbn; lia).
  assert (I2 : In (0.07 * Py.of_int c2)%float Checks.blues).
  { apply in_map_iff. exists c2. split; [reflexivity | apply range_In; cbn; lia]. }
  pose proof (forallb_In _ _ c0 luminosity_check I0) as Hrow.
  pose proof (forallb_In _ _ c1 Hrow I1) as Hcol.
  exact (forallb_In _ _ _ Hcol I2).
Qed.

(** C10: on a triple of integers in [0, 255], [Color.lightness],
    [Color.luminosity] and [Color.average] each return an integer in
    [0, 255]; in particular luminosity((255,0,0)) is 53 and
    lightness((10,200,30)) is 105. *)
Theorem grey_levels_in_range (c : Color.rgb) :
  Color.valid c ->
  (exists l y a,
      Color.lightness c = Ok l /\ Color.luminosity c = Ok y
      /\ Color.average c = Ok a
      /\ 0 <= l <= 255 /\ 0 <= y <= 255 /\ 0 <= a <= 255)
  /\ Color.luminosity (255, 0, 0) = Ok 53
  /\ Color.lightness (10, 200, 30) = Ok 105.
Proof.
  intros Hc. split.
  - destruct (lightness_in_range c Hc) as (l & Hl & Bl).
    destruct (luminosity_in_range c Hc) as (y & Hy & By).
    destruct (average_in_range c Hc) as (a & Ha & Ba).
    exists l, y, a. repeat split; (assumption || lia).
  - split; vm_compute; reflexivity.
Qed.

Lemma grey_levels_in_range_witness :
  (exists l y a,
      Color.lightness (10, 200, 30) = Ok l /\ Color.luminosity (10, 200, 30) = Ok y
      /\ Color.average (10, 200, 30) = Ok a
      /\ 0 <= l <= 255 /\ 0 <= y <= 255 /\ 0 <= a <= 255)
  /\ Color.luminosity (255, 0, 0) = Ok 53
  /\ Color.lightness (10, 200, 30) = Ok 105.
Proof.
  apply (grey_levels_in_range (10, 200, 30)).
  unfold Color.valid, Color.channel. lia.
Defined.

End GreyFacts.

(** ** ColorCurve *)

Module CurveFacts.

Import CompareFacts.

Lemma interval_length : length ColorCurve.interval = 256%nat.
Proof.
  unfold ColorCurve.interval, Py.range. now rewrite !length_map, length_seq.
Qed.

(** X9: whatever the argument (a spline or control points), a constructed
    curve has 256 entries. *)
Lemma init_length (fit : list float -> list float -> res (float -> float))
    (v : ColorCurve.vals) (curve : list float) :
  ColorCurve.init fit v = Ok curve -> length curve = 256%nat.
Proof.
  destruct v as [spline | pts | spline]; cbn [ColorCurve.init].
  - intros [= <-]. reflexivity.
  - destruct (fit (map fst pts) (map snd pts)) as [spline | e]; cbn [bind];
      [| discriminate].
    intros [= <-]. reflexivity.
  - discriminate.
Qed.

Lemma clamp_in_range (y : float) :
  is_nan y = false ->
  ColorCurve.in_range (ColorCurve.np_maximum (ColorCurve.np_minimum y 255) 0) = true.
Proof.
  intros Hy. unfold ColorCurve.np_minimum. rewrite Hy.
  destruct (y <? 255)%float eqn:L; [| reflexivity].
  unfold ColorCurve.np_maximum. rewrite Hy.
  destruct (0 <? y)%float eqn:P; [| reflexivity].
  unfold ColorCurve.in_range. now rewrite (ltb_leb _ _ P), (ltb_leb _ _ L).
Qed.

(** X11: the branch that fits the spline itself clamps: when the fit succeeds
    and the fitted spline evaluates to numbers on the interval, every entry
    of the curve lies in [0, 255]. *)
Lemma points_branch_clamped (fit : list float -> list float -> res (float -> float))
    (pts : list (float * float)) (spline : float -> float) :
  fit (map fst pts) (map snd pts) = Ok spline ->
  (forall x, In x ColorCurve.interval -> is_nan (spline x) = false) ->
  exists curve,
    ColorCurve.init fit (ColorCurve.Points pts) = Ok curve
    /\ length curve = 256%nat
    /\ Forall (fun y => ColorCurve.in_range y = true) curve.
Proof.
  intros Hfit Hnum. cbn [ColorCurve.init]. rewrite Hfit. cbn [bind].
  eexists. split; [reflexivity |]. split.
  - rewrite length_map. apply interval_length.
  - apply Forall_forall. intros y Hy. apply in_map_iff in Hy as (x & <- & Hx).
    apply clamp_in_range, Hnum, Hx.
Qed.

End CurveFacts.

(** ** The sign of a difference and of a quotient *)

Module SignFacts.

Import FloatFacts CompareFacts ArithFacts.

Lemma shr_1_nonneg (mrs : shr_record) :
  0 <= shr_m mrs -> 0 <= shr_m (shr_1 mrs).
Proof.
  destruct mrs as [m r s]. cbn [shr_m]. intros H.
  destruct m as [| p | p]; [| destruct p | lia]; cbn; lia.
Qed.

Lemma iter_shr_1_nonneg (p : positive) (mrs : shr_record) :
  0 <= shr_m mrs -> 0 <= shr_m (iter_pos shr_1 p mrs).
Proof.
  revert mrs. induction p as [p IH | p IH |]; intros mrs H; cbn [iter_pos].
  - apply IH, IH, shr_1_nonneg, H.
  - apply IH, IH, H.
  - apply shr_1_nonneg, H.
Qed.

Lemma shr_fexp_nonneg (m e : Z) (l : location) :
  0 <= m -> 0 <= shr_m (fst (shr_fexp prec emax m e l)).
Proof.
  intros H. unfold shr_fexp, shr.
  assert (H0 : 0 <= shr_m (shr_record_of_loc m l))
    by (destruct l as [| []]; exact H).
  destruct (fexp prec emax (Zdigits2 m + e) - e) as [| p | p]; cbn [fst];
    try exact H0.
  apply iter_shr_1_nonneg, H0.
Qed.

Lemma round_nearest_even_nonneg (m : Z) (l : location) :
  0 <= m -> 0 <= round_nearest_even m l.
Proof.
  intros H. destruct l as [| []]; cbn [round_nearest_even];
    try destruct (Z.even m); lia.
Qed.

(** Rounding a non-negative significand keeps the sign it is given. *)
Lemma binary_round_aux_sign (s : bool) (m e : Z) (l : location) :
  0 <= m -> Py.has_sign s (binary_round_aux prec emax s m e l).
Proof.
  intros H. unfold binary_round_aux.
  pose proof (shr_fexp_nonneg m e l H) as H1.
  destruct (shr_fexp prec emax m e l) as [mrs' e']. cbn [fst] in H1.
  pose proof (shr_fexp_nonneg _ e' loc_Exact
                (round_nearest_even_nonneg _ (loc_of_shr_record mrs') H1)) as H2.
  destruct (shr_fexp prec emax
              (round_nearest_even (shr_m mrs') (loc_of_shr_record mrs')) e' loc_Exact)
    as [mrs'' e'']. cbn [fst] in H2.
  destruct (shr_m mrs'') as [| p | p]; [reflexivity | | lia].
  destruct (e'' <=? emax - prec); reflexivity.
Qed.

Lemma binary_normalize_pos_sign (z e : Z) :
  0 < z -> Py.has_sign false (binary_normalize prec emax z e false).
Proof.
  intros H. destruct z as [| p | p]; try lia. cbn [binary_normalize].
  unfold binary_round.
  destruct (shl_align p e (fexp prec emax (Zpos (digits2_pos p) + e))) as [mz ez].
  apply binary_round_aux_sign. lia.
Qed.

Lemma binary_normalize_neg_sign (z e : Z) :
  z < 0 -> Py.has_sign true (binary_normalize prec emax z e false).
Proof.
  intros H. destruct z as [| p | p]; try lia. cbn [binary_normalize].
  unfold binary_round.
  destruct (shl_align p e (fexp prec emax (Zpos (digits2_pos p) + e))) as [mz ez].
  apply binary_round_aux_sign. lia.
Qed.

(** The significand aligned to a smaller exponent. *)
Lemma shl_align_value (m : positive) (e ez : Z) :
  ez <= e -> Zpos (fst (shl_align m e ez)) = Zpos m * 2 ^ (e - ez).
Proof.
  intros H. unfold shl_align.
  destruct (ez - e) as [| d | d] eqn:E; cbn [fst].
  - replace (e - ez) with 0 by lia. cbn. lia.
  - lia.
  - rewrite iter_xO_spec. f_equal. f_equal. lia.
Qed.

(** Among valid positive numbers the order is the order of the pairs
    (exponent, significand). *)
Lemma aligned_lt (mx my : positive) (ex ey : Z) :
  bounded prec emax mx ex = true -> bounded prec emax my ey = true ->
  ex < ey \/ (ex = ey /\ (mx < my)%positive) ->
  Zpos (fst (shl_align mx ex (Z.min ex ey)))
  < Zpos (fst (shl_align my ey (Z.min ex ey))).
Proof.
  intros Bx By Hlt.
  destruct (bounded_inv _ _ Bx) as (Dx & Ex & _).
  destruct (bounded_inv _ _ By) as (Dy & Ey & Ny).
  rewrite !shl_align_value by lia.
  destruct Hlt as [Hlt | [-> Hlt]].
  - rewrite Z.min_l by lia. rewrite Z.sub_diag. change (2 ^ 0) with 1.
    apply digits2_pos_bound in Dx; [| lia].
    pose proof (digits2_pos_lower my) as Ly. rewrite (Ny ltac:(lia)) in Ly.
    assert (Hp : 2 ^ 1 <= 2 ^ (ey - ex)) by (apply Z.pow_le_mono_r; lia).
    change (2 ^ 1) with 2 in Hp.
    change (2 ^ (53 - 1)) with 4503599627370496 in Ly.
    change (2 ^ 53) with 9007199254740992 in Dx.
    nia.
  - rewrite Z.min_id, Z.sub_diag. change (2 ^ 0) with 1. lia.
Qed.

Lemma SFcompare_finite_lt (mx my : positive) (ex ey : Z) :
  SFcompare (S754_finite false mx ex) (S754_finite false my ey) = Some Lt ->
  ex < ey \/ (ex = ey /\ (mx < my)%positive).
Proof.
  cbn [SFcompare]. destruct (ex ?= ey) eqn:C; intros H.
  - right. split; [now apply Z.compare_eq | now injection H].
  - left. now apply Z.compare_lt_iff.
  - discriminate H.
Qed.

(** If x < y then y - x is not negative (and not a NaN). *)
Lemma SFsub_sign (x y : spec_float) :
  valid_binary x = true -> valid_binary y = true ->
  SFltb x y = true -> Py.has_sign false (SF64sub y x).
Proof.
  unfold SFltb. intros Vx Vy H.
  destruct (SFcompare x y) as [[ | | ] |] eqn:C; try discriminate. clear H.
  destruct x as [sx | sx | | sx mx ex], y as [sy | sy | | sy my ey];
    try discriminate C;
    try (destruct sx, sy; try discriminate C; reflexivity);
    try (destruct sx; try discriminate C; reflexivity);
    try (destruct sy; try discriminate C; reflexivity).
  cbn [valid_binary] in Vx, Vy. unfold SF64sub, SFsub.
  destruct sx, sy; cbn [cond_Zopp].
  - (* both negative *)
    apply binary_normalize_pos_sign.
    apply SFcompare_swap in C. cbn [CompOpp] in C.
    assert (C' : SFcompare (S754_finite false my ey) (S754_finite false mx ex) = Some Lt).
    { revert C. cbn [SFcompare]. destruct (ey ?= ex); cbn; try congruence.
      destruct (Pos.compare_cont Eq my mx); cbn; congruence. }
    pose proof (aligned_lt _ _ _ _ Vy Vx (SFcompare_finite_lt _ _ _ _ C')). lia.
  - (* x negative, y positive *)
    apply binary_normalize_pos_sign. lia.
  - discriminate C.
  - (* both positive *)
    apply binary_normalize_pos_sign.
    pose proof (aligned_lt _ _ _ _ Vx Vy (SFcompare_finite_lt _ _ _ _ C)) as H.
    rewrite (Z.min_comm ex ey) in H. lia.
Qed.

(** Dividing by a positive finite number keeps the sign. *)
Lemma SFdiv_sign (s : bool) (x : spec_float) (m : positive) (e : Z) :
  Py.has_sign s x -> Py.has_sign s (SF64div x (S754_finite false m e)).
Proof.
  destruct x as [sx | sx | | sx mx ex]; cbn [Py.has_sign]; intros H; try contradiction;
    subst sx; unfold SF64div, SFdiv; try (destruct s; reflexivity).
  destruct (SFdiv_core_binary prec emax (Zpos mx) ex (Zpos m) e) as [[mz ez] lz] eqn:D.
  replace (xorb s false) with s by (destruct s; reflexivity).
  apply binary_round_aux_sign.
  unfold SFdiv_core_binary in D.
  destruct (Z.div_eucl _ (Zpos m)) as [q r] eqn:Q in D.
  injection D as <- _ _.
  match type of Q with Z.div_eucl ?a ?b = _ =>
    assert (Hq : q = a / b) by (unfold Z.div; now rewrite Q);
    assert (Ha : 0 <= a)
  end.
  { destruct (ex - e - _) as [| p | p]; try lia. apply Z.shiftl_nonneg. lia. }
  rewrite Hq. apply Z.div_pos; lia.
Qed.

Lemma has_sign_nonneg (x : float) :
  Py.has_sign false (Prim2SF x) -> (0 <=? x)%float = true.
Proof.
  rewrite leb_spec. replace (Prim2SF 0) with (S754_zero false) by reflexivity.
  destruct (Prim2SF x) as [s | s | | s m e]; cbn [Py.has_sign];
    intros H; try contradiction; subst; reflexivity.
Qed.

Lemma has_sign_nonpos (x : float) :
  Py.has_sign true (Prim2SF x) -> (x <=? 0)%float = true.
Proof.
  rewrite leb_spec. replace (Prim2SF 0) with (S754_zero false) by reflexivity.
  destruct (Prim2SF x) as [s | s | | s m e]; cbn [Py.has_sign];
    intros H; try contradiction; subst; reflexivity.
Qed.

End SignFacts.

(** ** ColorMap *)

Module MapFacts.

Import FloatFacts CompareFacts ArithFacts SignFacts DegenerateFacts.

(** If x < y then x - y is not positive (and not a NaN). *)
Lemma SFsub_sign_neg (x y : spec_float) :
  valid_binary x = true -> valid_binary y = true ->
  SFltb x y = true -> Py.has_sign true (SF64sub x y).
Proof.
  unfold SFltb. intros Vx Vy H.
  destruct (SFcompare x y) as [[ | | ] |] eqn:C; try discriminate. clear H.
  destruct x as [sx | sx | | sx mx ex], y as [sy | sy | | sy my ey];
    try discriminate C;
    try (destruct sx, sy; try discriminate C; reflexivity);
    try (destruct sx; try discriminate C; reflexivity);
    try (destruct sy; try discriminate C; reflexivity).
  cbn [valid_binary] in Vx, Vy. unfold SF64sub, SFsub.
  destruct sx, sy; cbn [cond_Zopp].
  - apply binary_normalize_neg_sign.
    apply SFcompare_swap in C. cbn [CompOpp] in C.
    assert (C' : SFcompare (S754_finite false my ey) (S754_finite false mx ex) = Some Lt).
    { revert C. cbn [SFcompare]. destruct (ey ?= ex); cbn; try congruence.
      destruct (Pos.compare_cont Eq my mx); cbn; congruence. }
    pose proof (aligned_lt _ _ _ _ Vy Vx (SFcompare_finite_lt _ _ _ _ C')) as H.
    rewrite (Z.min_comm ey ex) in H. lia.
  - apply binary_normalize_neg_sign. lia.
  - discriminate C.
  - apply binary_normalize_neg_sign.
    pose proof (aligned_lt _ _ _ _ Vx Vy (SFcompare_finite_lt _ _ _ _ C)). lia.
Qed.

(** Construction succeeds on two or more colours, whatever the range. *)
Lemma init_ok (color : ColorMap.color_arg) (s e : float) :
  2 <= Z.of_nat (length (ColorMap.entries color)) < 2 ^ 53 ->
  ColorMap.init color s e
  = Ok (ColorMap.mk (ColorMap.entries color) s e (e - s)%float
          ((e - s) / Py.of_int (Z.of_nat (length (ColorMap.entries color)) - 1))%float).
Proof.
  intros Hlen. unfold ColorMap.init. rewrite as_array_entries by lia. cbn [bind].
  destruct (of_int_pos (Z.of_nat (length (ColorMap.entries color)) - 1))
    as (m & e' & Hk); [lia |].
  unfold Py.truediv. now rewrite (finite_nonzero _ _ _ _ Hk).
Qed.

(** C5, as the code has it: on two or more colours the constructor divides
    the signed range end_map - start_map by the number of segments, the
    colour count minus 1, so color_distance carries the sign of the range:
    it is not negative when start_map < end_map and not positive when
    start_map > end_map; two colours over the range 100 -> 0 give -100. *)
Theorem color_distance_sign (color : ColorMap.color_arg) (s e : float) :
  2 <= Z.of_nat (length (ColorMap.entries color)) < 2 ^ 53 ->
  exists self,
    ColorMap.init color s e = Ok self
    /\ ColorMap.color self = ColorMap.entries color
    /\ ColorMap.color_distance self
       = ((e - s) / Py.of_int (Z.of_nat (length (ColorMap.color self)) - 1))%float
    /\ ((s <? e)%float = true -> (0 <=? ColorMap.color_distance self)%float = true)
    /\ ((e <? s)%float = true -> (ColorMap.color_distance self <=? 0)%float = true)
    /\ ColorMap.init (ColorMap.Sequence [Color.BLACK; Color.WHITE]) 100 0
       = Ok (ColorMap.mk [Color.BLACK; Color.WHITE] 100 0 (-100) (-100)).
Proof.
  intros Hlen. eexists. split; [apply init_ok, Hlen |].
  cbn [ColorMap.color ColorMap.color_distance].
  split; [reflexivity |]. split; [reflexivity |].
  destruct (of_int_pos (Z.of_nat (length (ColorMap.entries color)) - 1))
    as (m & e' & Hk); [lia |].
  split; [| split; [| reflexivity]]; intros Hlt; rewrite ltb_spec in Hlt.
  - apply has_sign_nonneg. rewrite div_spec, sub_spec, Hk.
    apply SFdiv_sign, SFsub_sign; auto using Prim2SF_valid.
  - apply has_sign_nonpos. rewrite div_spec, sub_spec, Hk.
    apply SFdiv_sign, SFsub_sign_neg; auto using Prim2SF_valid.
Qed.

Lemma color_distance_sign_witness :
  exists self,
    ColorMap.init (ColorMap.Sequence [Color.BLACK; Color.WHITE]) 0 100 = Ok self
    /\ ColorMap.color self = ColorMap.entries (ColorMap.Sequence [Color.BLACK; Color.WHITE])
    /\ ColorMap.color_distance self
       = ((100 - 0) / Py.of_int (Z.of_nat (length (ColorMap.color self)) - 1))%float
    /\ ((0 <? 100)%float = true -> (0 <=? ColorMap.color_distance self)%float = true)
    /\ ((100 <? 0)%float = true -> (ColorMap.color_distance self <=? 0)%float = true)
    /\ ColorMap.init (ColorMap.Sequence [Color.BLACK; Color.WHITE]) 100 0
       = Ok (ColorMap.mk [Color.BLACK; Color.WHITE] 100 0 (-100) (-100)).
Proof.
  apply (color_distance_sign (ColorMap.Sequence [Color.BLACK; Color.WHITE]) 0 100).
  simpl. lia.
Defined.

(** C5 as stated fails: a descending range gives a negative
    color_distance. *)
Lemma color_distance_not_always_positive :
  ~ (forall (color : ColorMap.color_arg) (s e : float) (self : ColorMap.t),
        (s =? e)%float = false ->
        ColorMap.init color s e = Ok self ->
        (0 <? ColorMap.color_distance self)%float = true).
Proof.
  intros H.
  specialize (H (ColorMap.Sequence [Color.BLACK; Color.WHITE]) 100%float 0%float
                _ eq_refl eq_refl).
  vm_compute in H. discriminate H.
Qed.

(** The descending range 100 -> 0 over two colours has color_distance
    -100; and an ascending range can still give zero, when the quotient
    underflows. *)
Lemma color_distance_examples :
  (exists self,
      ColorMap.init (ColorMap.Sequence [Color.BLACK; Color.WHITE]) 100 0 = Ok self
      /\ ColorMap.color_distance self = (-100)%float)
  /\ (exists self,
         ColorMap.init (ColorMap.Sequence [Color.BLACK; Color.GRAY; Color.WHITE])
           0 0x1p-1074 = Ok self
         /\ (0 <? 0x1p-1074)%float = true
         /\ ColorMap.color_distance self = 0%float).
Proof.
  split; eexists; repeat split; vm_compute; reflexivity.
Qed.

(** Inside the range the clamping leaves the value alone. *)
Lemma clamp_inside (self : ColorMap.t) (v : float) :
  (ColorMap.start_map self <=? v)%float = true ->
  (v <=? ColorMap.end_map self)%float = true ->
  ColorMap.clamp self v = v.
Proof.
  intros Hs He. unfold ColorMap.clamp.
  now rewrite (leb_not_ltb _ _ He), (leb_not_ltb _ _ Hs).
Qed.

(** C2: for a map over two or more colours with start_map < end_map and a
    value v with start_map <= v <= end_map, lookup computes the position
    value = (v - start_map) / color_distance, takes i = int(value) and
    alpha = value - i and, when color[i] and color[i+1] both exist (v is
    inside segment i), returns channel by channel
    int(color[i] * (1 - alpha) + color[i+1] * alpha).
    In particular ColorMap(((0,0,0),(255,255,255)), 0, 100)[50] is
    (127, 127, 127). *)
Theorem getitem_interpolates (cs : list Color.rgb) (s e v : float)
    (self : ColorMap.t) (i : Z) :
  ColorMap.init (ColorMap.Sequence cs) s e = Ok self ->
  (s <? e)%float = true ->
  (s <=? v)%float = true -> (v <=? e)%float = true ->
  (ColorMap.color_distance self =? 0)%float = false ->
  Py.int_of_float ((v - s) / ColorMap.color_distance self)%float = Ok i ->
  0 <= i -> i + 1 < Z.of_nat (length cs) ->
  (exists r0 g0 b0 r1 g1 b1,
      nth_error cs (Z.to_nat i) = Some (r0, g0, b0)
      /\ nth_error cs (Z.to_nat (i + 1)) = Some (r1, g1, b1)
      /\ let value := ((v - s) / ColorMap.color_distance self)%float in
         let alpha := (value - Py.of_int i)%float in
         ColorMap.getitem self v
         = (r <- Py.int_of_float (Py.of_int r0 * (1 - alpha) + Py.of_int r1 * alpha)%float ;;
            g <- Py.int_of_float (Py.of_int g0 * (1 - alpha) + Py.of_int g1 * alpha)%float ;;
            b <- Py.int_of_float (Py.of_int b0 * (1 - alpha) + Py.of_int b1 * alpha)%float ;;
            Ok (r, g, b)))
  /\ ColorMap.lookup (ColorMap.Sequence [(0, 0, 0); (255, 255, 255)]) 0 100 50
     = Ok (127, 127, 127).
Proof.
  intros Hinit Hse Hsv Hve Hcd Hi Hi0 Hi1. split; [| vm_compute; reflexivity].
  assert (Hself : ColorMap.color self = cs /\ ColorMap.start_map self = s
                  /\ ColorMap.end_map self = e).
  { unfold ColorMap.init in Hinit.
    destruct cs as [| c cs']; [discriminate Hinit |].
    cbn [ColorMap.as_array bind] in Hinit.
    destruct (Py.truediv _ _) as [cd | err] in Hinit; [| discriminate Hinit].
    cbn [bind] in Hinit. injection Hinit as <-. repeat split. }
  destruct Hself as (Hc & Hs & He).
  destruct (nth_error cs (Z.to_nat i)) as [[[r0 g0] b0] |] eqn:N0.
  2:{ apply nth_error_None in N0. lia. }
  destruct (nth_error cs (Z.to_nat (i + 1))) as [[[r1 g1] b1] |] eqn:N1.
  2:{ apply nth_error_None in N1. lia. }
  exists r0, g0, b0, r1, g1, b1. split; [reflexivity |]. split; [reflexivity |].
  cbv zeta. unfold ColorMap.getitem.
  rewrite clamp_inside by (rewrite ?Hs, ?He; assumption).
  rewrite Hs, Hc. unfold Py.truediv at 1. rewrite Hcd. cbn [bind].
  rewrite Hi. cbn [bind].
  replace (i =? Z.of_nat (length cs) - 1) with false
    by (symmetry; apply Z.eqb_neq; lia).
  rewrite (getitem_nth cs i _ Hi0 N0). cbn [bind].
  rewrite (getitem_nth cs (i + 1) _ ltac:(lia) N1). cbn [bind].
  reflexivity.
Qed.

Lemma getitem_interpolates_witness :
  (exists r0 g0 b0 r1 g1 b1,
      nth_error [Color.BLACK; Color.WHITE] (Z.to_nat 0) = Some (r0, g0, b0)
      /\ nth_error [Color.BLACK; Color.WHITE] (Z.to_nat (0 + 1)) = Some (r1, g1, b1)
      /\ let value := ((50 - 0) / ColorMap.color_distance
                                    (ColorMap.mk [Color.BLACK; Color.WHITE] 0 100 100 100))%float in
         let alpha := (value - Py.of_int 0)%float in
         ColorMap.getitem (ColorMap.mk [Color.BLACK; Color.WHITE] 0 100 100 100) 50
         = (r <- Py.int_of_float (Py.of_int r0 * (1 - alpha) + Py.of_int r1 * alpha)%float ;;
            g <- Py.int_of_float (Py.of_int g0 * (1 - alpha) + Py.of_int g1 * alpha)%float ;;
            b <- Py.int_of_float (Py.of_int b0 * (1 - alpha) + Py.of_int b1 * alpha)%float ;;
            Ok (r, g, b)))
  /\ ColorMap.lookup (ColorMap.Sequence [(0, 0, 0); (255, 255, 255)]) 0 100 50
     = Ok (127, 127, 127).
Proof.
  apply (getitem_interpolates [Color.BLACK; Color.WHITE] 0 100 50
           (ColorMap.mk [Color.BLACK; Color.WHITE] 0 100 100 100) 0);
    try (vm_compute; reflexivity); simpl; lia.
Defined.

(** C3, on the code: over the eight colours of [rainbow] and the range
    [0, 9] the position of end_map is 9 / (9 / 7), which rounds to
    6.999999999999999 in binary64.  The index is 6, not 7, the guard for
    the last colour does not fire, and the lookup blends INDIGO into VIOLET:
    it returns (180, 125, 219) where the last colour is (181, 126, 220). *)
Theorem lookup_at_end_map_blends :
  exists self,
    ColorMap.init (ColorMap.Sequence ColorMap.rainbow) 0 9 = Ok self
    /\ Py.truediv (ColorMap.end_map self - ColorMap.start_map self)%float
         (ColorMap.color_distance self) = Ok 0x1.bffffffffffffp+2%float
    /\ Py.int_of_float 0x1.bffffffffffffp+2%float = Ok 6
    /\ ColorMap.getitem self 9 = Ok (180, 125, 219)
    /\ last ColorMap.rainbow Color.BLACK = (181, 126, 220)
    /\ ColorMap.getitem self 0 = Ok Color.RED
    /\ ColorMap.getitem self 10 = ColorMap.getitem self 9.
Proof.
  eexists. split; [vm_compute; reflexivity |].
  repeat split; vm_compute; reflexivity.
Qed.

End MapFacts.

(** ** Color.rgb2hsv *)

Module HsvFacts.

Import ArithFacts.

(** On a well-formed colour [colorsys.rgb_to_hsv] does not raise, and the
    value it returns is the largest channel, as given. *)
Lemma rgb_to_hsv_ok (r g b : Z) :
  Color.valid (r, g, b) ->
  exists h s, colorsys.rgb_to_hsv r g b = Ok (h, s, Z.max (Z.max r g) b).
Proof.
  unfold Color.valid, Color.channel. intros (Hr & Hg & Hb).
  unfold colorsys.rgb_to_hsv.
  destruct (Z.min (Z.min r g) b =? Z.max (Z.max r g) b) eqn:E.
  - eauto.
  - apply Z.eqb_neq in E.
    assert (H53 : 256 < 2 ^ 53) by reflexivity.
    rewrite !int_truediv_ok by lia. cbn [bind]. eauto.
Qed.

(** C4: on a triple of integers in [0, 255], [Color.rgb2hsv] is the
    colorsys transform of the raw components (they are passed as they are,
    not divided by 255 first), with the hue multiplied by 180, the
    saturation multiplied by 255 and the value left as it is: the largest
    of the raw channels. *)
Theorem rgb2hsv_scales_raw_transform (r g b : Z) :
  Color.valid (r, g, b) ->
  exists h_raw s_raw v_raw,
    colorsys.rgb_to_hsv r g b = Ok (h_raw, s_raw, v_raw)
    /\ Color.rgb2hsv (r, g, b) = Ok ((h_raw * 180)%float, (s_raw * 255)%float, v_raw)
    /\ v_raw = Z.max (Z.max r g) b.
Proof.
  intros Hc. destruct (rgb_to_hsv_ok r g b Hc) as (h & s & H).
  exists h, s, (Z.max (Z.max r g) b). split; [exact H |]. split; [| reflexivity].
  unfold Color.rgb2hsv. rewrite H. reflexivity.
Qed.

Lemma rgb2hsv_scales_raw_transform_witness :
  exists h_raw s_raw v_raw,
    colorsys.rgb_to_hsv 10 200 30 = Ok (h_raw, s_raw, v_raw)
    /\ Color.rgb2hsv (10, 200, 30) = Ok ((h_raw * 180)%float, (s_raw * 255)%float, v_raw)
    /\ v_raw = Z.max (Z.max 10 200) 30.
Proof.
  apply (rgb2hsv_scales_raw_transform 10 200 30).
  unfold Color.valid, Color.channel. lia.
Defined.

(** Pure red: hue 0, saturation 255 and value 255 (not 1.0). *)
Example rgb2hsv_red : Color.rgb2hsv Color.RED = Ok (0%float, 255%float, 255).
Proof. vm_compute. reflexivity. Qed.

Example rgb2hsv_teal : Color.rgb2hsv Color.TEAL = Ok (90%float, 255%float, 128).
Proof. vm_compute. reflexivity. Qed.

End HsvFacts.

(** ** Color.hue and Color.hue2rgb: the round trip on the hue *)

Module HueFacts.

Import FloatFacts CompareFacts ArithFacts GreyFacts HsvFacts.

Lemma lt_pow52_cases (m : positive) (e E : Z) :
  SFltb (S754_finite false m e) (S754_finite false 4503599627370496 E) = true ->
  e < E \/ (e = E /\ Zpos m < 2 ^ 52).
Proof.
  unfold SFltb. cbn [SFcompare].
  destruct (e ?= E) eqn:C.
  - intros H. right. split; [apply Z.compare_eq; exact C |].
    assert (P : (m < 4503599627370496)%positive).
    { unfold Pos.lt, Pos.compare. revert H.
      destruct (Pos.compare_cont Eq m 4503599627370496); cbn; congruence. }
    exact P.
  - intros _. left. apply Z.compare_lt_iff. exact C.
  - discriminate.
Qed.

(** A valid finite number below 2^E in magnitude, for E <= 0, truncates to
    zero. *)
Lemma shiftl_small (m : positive) (e : Z) :
  bounded prec emax m e = true ->
  e < -52 \/ (e = -52 /\ Zpos m < 2 ^ 52) ->
  Z.shiftl (Zpos m) e = 0.
Proof.
  intros B H. destruct (bounded_inv m e B) as (Hd & He & _).
  apply digits2_pos_bound in Hd; [| lia].
  rewrite <- Z.shiftr_opp_r, Z.shiftr_div_pow2 by lia.
  apply Z.div_small. split; [lia |].
  destruct H as [Hlt | [-> Hm]].
  - assert (2 ^ 53 <= 2 ^ (- e)) by (apply Z.pow_le_mono_r; lia). lia.
  - exact Hm.
Qed.

Lemma small_trunc (x : float) :
  (-1 <? x)%float = true -> (x <? 1)%float = true ->
  Py.int_of_float x = Ok 0 /\ (abs x <? 0x1p53)%float = true.
Proof.
  rewrite !ltb_spec, abs_spec.
  replace (Prim2SF (-1)) with (S754_finite true 4503599627370496 (-52)) by reflexivity.
  replace (Prim2SF 1) with (S754_finite false 4503599627370496 (-52)) by reflexivity.
  replace (Prim2SF 0x1p53) with (S754_finite false 4503599627370496 1) by reflexivity.
  unfold Py.int_of_float. intros H0 H1.
  destruct (Prim2SF x) as [s | s | | s m e] eqn:E.
  - split; reflexivity.
  - destruct s; discriminate.
  - discriminate.
  - pose proof (valid_finite x _ _ _ E) as B.
    assert (Hmag : e < -52 \/ (e = -52 /\ Zpos m < 2 ^ 52)).
    { destruct s.
      - clear H1. apply lt_pow52_cases. revert H0. unfold SFltb. cbn [SFcompare].
        rewrite (Z.compare_antisym e (-52)).
        destruct (e ?= -52); cbn [CompOpp]; try congruence.
        rewrite (Pos.compare_cont_antisym 4503599627370496 m Eq).
        cbn [CompOpp]. destruct (Pos.compare_cont Eq m 4503599627370496); cbn; congruence.
      - apply lt_pow52_cases, H1. }
    rewrite (shiftl_small m e B Hmag). split.
    + destruct s; reflexivity.
    + cbn [SFabs]. unfold SFltb. cbn [SFcompare].
      replace (e ?= 1) with Lt; [reflexivity |].
      symmetry. apply Z.compare_lt_iff. lia.
Qed.

Lemma sub_zero (x : float) : (x - 0)%float = x.
Proof.
  apply Prim2SF_inj. rewrite sub_spec.
  replace (Prim2SF 0) with (S754_zero false) by reflexivity.
  destruct (Prim2SF x) as [[] | [] | | s m e]; reflexivity.
Qed.

Lemma mod1_small_eq (x : float) : Checks.mod1_small x = Py.mod1 x.
Proof.
  unfold Checks.mod1_small.
  destruct ((-1 <? x)%float && (x <? 1)%float) eqn:S; [| reflexivity].
  apply andb_true_iff in S as [S0 S1].
  destruct (small_trunc x S0 S1) as [Ht Ha].
  unfold Py.mod1. rewrite Ht, Ha. cbn [Py.of_int]. now rewrite sub_zero.
Qed.

Lemma rgb_to_hsv_small_eq (r g b : Z) :
  Checks.rgb_to_hsv_small r g b = colorsys.rgb_to_hsv r g b.
Proof.
  unfold Checks.rgb_to_hsv_small, colorsys.rgb_to_hsv. cbv zeta.
  destruct (_ =? _); [reflexivity |].
  do 4 (match goal with
        | |- context [Py.int_truediv ?a ?b] =>
            destruct (Py.int_truediv a b); cbn [bind]; [| reflexivity]
        end).
  now rewrite mod1_small_eq.
Qed.

Lemma hue2rgb_mid_eq (h : float) : Checks.hue2rgb_mid h = Color.hue2rgb h.
Proof.
  assert (Hv : Py.round (255 * 1)%float = Ok 255) by reflexivity.
  assert (Hp : Py.round (255 * (1 * (1 - 1)))%float = Ok 0) by reflexivity.
  unfold Checks.hue2rgb_mid, Color.hue2rgb, colorsys.hsv_to_rgb.
  replace (1 =? 0)%float with false by reflexivity.
  cbv zeta.
  destruct (Py.int_of_float (h / 180 * 6)%float) as [i | e]; cbn [bind];
    [| reflexivity].
  destruct (i mod 6) as [| p | p]; [| | reflexivity].
  - cbn [bind]. rewrite Hv, Hp. cbn [bind].
    destruct (Py.round _); reflexivity.
  - destruct p as [[[p | p |] | [p | p |] |] | [[p | p |] | [p | p |] |] |];
      cbn [bind]; try reflexivity;
      rewrite ?Hv, ?Hp; cbn [bind]; rewrite ?Hv, ?Hp;
      destruct (Py.round _); cbn [bind]; rewrite ?Hv, ?Hp; reflexivity.
Qed.

(** What the check establishes about a hue h: [hue2rgb] succeeds on it and
    gives a colour with largest channel 255 and smallest channel 0, hence of
    saturation 255 and value 255, whose hue is close to h. *)
Lemma round_trip_fast_spec (r g b : Z) :
  Checks.round_trip_fast (r, g, b) = true ->
  exists h, Color.hue (r, g, b) = Ok h /\ Checks.round_trip_holds h.
Proof.
  unfold Checks.round_trip_fast. rewrite rgb_to_hsv_small_eq.
  destruct (colorsys.rgb_to_hsv r g b) as [[[h0 s0] v0] | e0] eqn:E0;
    [| discriminate].
  rewrite hue2rgb_mid_eq.
  destruct (Color.hue2rgb (h0 * 180)%float) as [[[r' g'] b'] | e1] eqn:E1;
    [| discriminate].
  rewrite rgb_to_hsv_small_eq.
  destruct (colorsys.rgb_to_hsv r' g' b') as [[[h1 s1] v1] | e2] eqn:E2;
    [| rewrite andb_false_r; discriminate].
  rewrite !andb_true_iff, !Z.eqb_eq. intros [[Hmax Hmin] [[Hs Hv] Hclose]].
  exists (h0 * 180)%float. split.
  - unfold Color.hue. now rewrite E0.
  - unfold Checks.round_trip_holds. rewrite E1.
    exists r', g', b', (h1 * 180)%float, (s1 * 255)%float.
    repeat split; try assumption.
    + unfold Color.rgb2hsv. rewrite E2. cbn [bind]. now rewrite Hv.
    + unfold Color.hue. now rewrite E2.
Qed.

(** The hue of a colour does not change when its smallest channel is
    subtracted from all three. *)
Lemma hue_shift (r g b : Z) :
  Color.valid (r, g, b) ->
  Color.hue (r, g, b)
  = Color.hue (r - Z.min (Z.min r g) b, g - Z.min (Z.min r g) b,
               b - Z.min (Z.min r g) b).
Proof.
  unfold Color.valid, Color.channel. intros (Hr & Hg & Hb).
  set (m := Z.min (Z.min r g) b). set (M := Z.max (Z.max r g) b).
  unfold Color.hue, colorsys.rgb_to_hsv. fold m M.
  replace (Z.max (Z.max (r - m) (g - m)) (b - m)) with (M - m) by lia.
  replace (Z.min (Z.min (r - m) (g - m)) (b - m)) with 0 by lia.
  replace (M - m - 0) with (M - m) by lia.
  replace (M - m - (r - m)) with (M - r) by lia.
  replace (M - m - (g - m)) with (M - g) by lia.
  replace (M - m - (b - m)) with (M - b) by lia.
  replace (0 =? M - m) with (m =? M)
    by (destruct (Z.eqb_spec m M), (Z.eqb_spec 0 (M - m)); lia).
  replace (r - m =? M - m) with (r =? M)
    by (destruct (Z.eqb_spec r M), (Z.eqb_spec (r - m) (M - m)); lia).
  replace (g - m =? M - m) with (g =? M)
    by (destruct (Z.eqb_spec g M), (Z.eqb_spec (g - m) (M - m)); lia).
  destruct (Z.eqb_spec m M) as [E | E]; [reflexivity |].
  assert (H53 : 256 < 2 ^ 53) by reflexivity.
  assert (Hm : 0 <= m <= M /\ M <= 255) by lia.
  rewrite !int_truediv_ok by lia. reflexivity.
Qed.

Lemma round_trip_rows_r : forallb Checks.row_r (Py.range 256) = true.
Proof. vm_cast_no_check (eq_refl true). Qed.

Lemma round_trip_rows_g : forallb Checks.row_g (Py.range 256) = true.
Proof. vm_cast_no_check (eq_refl true). Qed.

Lemma round_trip_rows_b : forallb Checks.row_b (Py.range 256) = true.
Proof. vm_cast_no_check (eq_refl true). Qed.

(** Every well-formed colour with a channel at 0 passes the check. *)
Lemma round_trip_zero_min (r g b : Z) :
  Color.valid (r, g, b) -> Z.min (Z.min r g) b = 0 ->
  Checks.round_trip_fast (r, g, b) = true.
Proof.
  unfold Color.valid, Color.channel. intros (Hr & Hg & Hb) Hmin.
  assert (Ir : In r (Py.range 256)) by (apply range_In; cbn; lia).
  assert (Ig : In g (Py.range 256)) by (apply range_In; cbn; lia).
  assert (Ib : In b (Py.range 256)) by (apply range_In; cbn; lia).
  assert (Hz : r = 0 \/ g = 0 \/ b = 0) by lia.
  destruct Hz as [-> | [-> | ->]].
  - exact (forallb_In _ _ b (forallb_In _ _ g round_trip_rows_r Ig) Ib).
  - exact (forallb_In _ _ b (forallb_In _ _ r round_trip_rows_g Ir) Ib).
  - exact (forallb_In _ _ g (forallb_In _ _ r round_trip_rows_b Ir) Ig).
Qed.

(** C9: for a triple of integers in [0, 255], [Color.hue] followed by
    [Color.hue2rgb] gives a fully saturated colour of full value (largest
    channel 255, smallest 0, so that rgb2hsv reports saturation 255 and
    value 255) whose hue agrees with the hue of the original up to the
    rounding of the channels.  Only the hue makes the round trip: grey comes
    back as pure red. *)
Theorem hue_round_trip (r g b : Z) :
  Color.valid (r, g, b) ->
  (exists h r' g' b' h' s',
      Color.hue (r, g, b) = Ok h
      /\ Color.hue2rgb h = Ok (r', g', b')
      /\ Z.max (Z.max r' g') b' = 255
      /\ Z.min (Z.min r' g') b' = 0
      /\ Color.rgb2hsv (r', g', b') = Ok (h', s', 255)
      /\ (s' =? 255)%float = true
      /\ Color.hue (r', g', b') = Ok h'
      /\ Checks.hue_close h h' = true)
  /\ (h <- Color.hue Color.GRAY ;; Color.hue2rgb h) = Ok Color.RED.
Proof.
  intros Hc. split; [| reflexivity].
  rewrite (hue_shift r g b Hc).
  pose proof Hc as Hc'. unfold Color.valid, Color.channel in Hc'.
  destruct (round_trip_fast_spec _ _ _
              (round_trip_zero_min (r - Z.min (Z.min r g) b)
                 (g - Z.min (Z.min r g) b) (b - Z.min (Z.min r g) b)
                 ltac:(unfold Color.valid, Color.channel; lia) ltac:(lia)))
    as (h & Hh & r' & g' & b' & h' & s' & H).
  exists h, r', g', b', h', s'. split; [exact Hh | exact H].
Qed.

Lemma hue_round_trip_witness :
  (exists h r' g' b' h' s',
      Color.hue (6, 5, 0) = Ok h
      /\ Color.hue2rgb h = Ok (r', g', b')
      /\ Z.max (Z.max r' g') b' = 255
      /\ Z.min (Z.min r' g') b' = 0
      /\ Color.rgb2hsv (r', g', b') = Ok (h', s', 255)
      /\ (s' =? 255)%float = true
      /\ Color.hue (r', g', b') = Ok h'
      /\ Checks.hue_close h h' = true)
  /\ (h <- Color.hue Color.GRAY ;; Color.hue2rgb h) = Ok Color.RED.
Proof.
  apply (hue_round_trip 6 5 0). unfold Color.valid, Color.channel. lia.
Defined.

End HueFacts.

(** ** ColorMap: values outside the range *)

Module ClampFacts.

Import CompareFacts.

Ltac fold_pos_compare :=
  repeat match goal with
         | H : context [Pos.compare_cont Eq ?a ?b] |- _ =>
             change (Pos.compare_cont Eq a b) with (Pos.compare a b) in H
         | |- context [Pos.compare_cont Eq ?a ?b] =>
             change (Pos.compare_cont Eq a b) with (Pos.compare a b)
         end.

Lemma SFcompare_lt_trans (x y z : spec_float) :
  SFcompare x y = Some Lt -> SFcompare y z = Some Lt -> SFcompare x z = Some Lt.
Proof.
  destruct x as [sx | sx | | sx mx ex], y as [sy | sy | | sy my ey],
    z as [sz | sz | | sz mz ez]; cbn [SFcompare];
    repeat match goal with s : bool |- _ => destruct s end;
    try discriminate; try reflexivity;
    intros H1 H2; injection H1 as H1; injection H2 as H2; f_equal;
    fold_pos_compare;
    destruct (Z.compare_spec ex ey), (Z.compare_spec ey ez),
      (Z.compare_spec ex ez); subst; try lia; try discriminate; try reflexivity;
    destruct (Pos.compare_spec mx my), (Pos.compare_spec my mz),
      (Pos.compare_spec mx mz); subst; cbn [CompOpp] in *;
    try lia; try discriminate; reflexivity.
Qed.

Lemma ltb_trans (x y z : float) :
  (x <? y)%float = true -> (y <? z)%float = true -> (x <? z)%float = true.
Proof.
  rewrite !ltb_spec. unfold SFltb.
  destruct (SFcompare (Prim2SF x) (Prim2SF y)) as [[ | | ] |] eqn:E1; try discriminate.
  destruct (SFcompare (Prim2SF y) (Prim2SF z)) as [[ | | ] |] eqn:E2; try discriminate.
  now rewrite (SFcompare_lt_trans _ _ _ E1 E2).
Qed.

(** X14: for a map with start_map < end_map, a value below start_map is looked
    up as start_map and a value above end_map as end_map. *)
Lemma getitem_clamps (self : ColorMap.t) (v : float) :
  (ColorMap.start_map self <? ColorMap.end_map self)%float = true ->
  ((v <? ColorMap.start_map self)%float = true ->
   ColorMap.getitem self v = ColorMap.getitem self (ColorMap.start_map self))
  /\ ((ColorMap.end_map self <? v)%float = true ->
      ColorMap.getitem self v = ColorMap.getitem self (ColorMap.end_map self)).
Proof.
  intros Hse.
  assert (Hs : ColorMap.clamp self (ColorMap.start_map self) = ColorMap.start_map self).
  { unfold ColorMap.clamp. now rewrite (ltb_not_ltb _ _ Hse), ltb_irrefl. }
  assert (He : ColorMap.clamp self (ColorMap.end_map self) = ColorMap.end_map self).
  { unfold ColorMap.clamp. now rewrite ltb_irrefl, (ltb_not_ltb _ _ Hse). }
  split; intros Hv; unfold ColorMap.getitem.
  - rewrite Hs. unfold ColorMap.clamp at 1.
    now rewrite (ltb_not_ltb _ _ (ltb_trans _ _ _ Hv Hse)), Hv.
  - rewrite He. unfold ColorMap.clamp at 1. now rewrite Hv.
Qed.

End ClampFacts.

(** ** Grey levels, exactly *)

Module GreyExact.

Import FloatFacts CompareFacts ArithFacts GreyFacts.

Lemma average_quotients : forallb (Ranges.same_quotient 3) (Py.range 766) = true.
Proof. vm_compute. reflexivity. Qed.

Lemma lightness_quotients : forallb (Ranges.same_quotient 2) (Py.range 511) = true.
Proof. vm_compute. reflexivity. Qed.

Lemma same_quotient_spec (d n : Z) :
  Ranges.same_quotient d n = true -> Checks.int_quotient n d = Ok (n / d).
Proof.
  unfold Ranges.same_quotient.
  destruct (Checks.int_quotient n d) as [z | e]; [| discriminate].
  intros H. apply Z.eqb_eq in H. now subst.
Qed.

(** X1: on a triple of integers in [0, 255], [Color.average] is the integer
    quotient of the sum of the channels by 3 (the float division and the
    truncation lose nothing), so it lies between the smallest and the
    largest channel. *)
Theorem average_is_floor (r g b : Z) :
  Color.valid (r, g, b) ->
  Color.average (r, g, b) = Ok ((r + g + b) / 3)
  /\ Z.min (Z.min r g) b <= (r + g + b) / 3 <= Z.max (Z.max r g) b.
Proof.
  unfold Color.valid, Color.channel. intros (Hr & Hg & Hb). split.
  - apply (same_quotient_spec 3).
    apply (forallb_In _ _ (r + g + b) average_quotients).
    apply range_In. cbn. lia.
  - split.
    + apply Z.div_le_lower_bound; lia.
    + apply Z.div_le_upper_bound; lia.
Qed.

Lemma average_is_floor_witness :
  Color.average (10, 200, 30) = Ok ((10 + 200 + 30) / 3)
  /\ Z.min (Z.min 10 200) 30 <= (10 + 200 + 30) / 3 <= Z.max (Z.max 10 200) 30.
Proof.
  apply (average_is_floor 10 200 30). unfold Color.valid, Color.channel. lia.
Defined.

(** X2: on a triple of integers in [0, 255], [Color.lightness] is the
    integer quotient by 2 of the sum of the largest and the smallest
    channel, so it lies between the two. *)
Theorem lightness_is_floor (r g b : Z) :
  Color.valid (r, g, b) ->
  Color.lightness (r, g, b)
  = Ok ((Z.max (Z.max r g) b + Z.min (Z.min r g) b) / 2)
  /\ Z.min (Z.min r g) b
     <= (Z.max (Z.max r g) b + Z.min (Z.min r g) b) / 2
     <= Z.max (Z.max r g) b.
Proof.
  unfold Color.valid, Color.channel. intros (Hr & Hg & Hb). split.
  - apply (same_quotient_spec 2).
    apply (forallb_In _ _ (Z.max (Z.max r g) b + Z.min (Z.min r g) b)
             lightness_quotients).
    apply range_In. cbn. lia.
  - split.
    + apply Z.div_le_lower_bound; lia.
    + apply Z.div_le_upper_bound; lia.
Qed.

Lemma lightness_is_floor_witness :
  Color.lightness (10, 200, 30)
  = Ok ((Z.max (Z.max 10 200) 30 + Z.min (Z.min 10 200) 30) / 2)
  /\ Z.min (Z.min 10 200) 30
     <= (Z.max (Z.max 10 200) 30 + Z.min (Z.min 10 200) 30) / 2
     <= Z.max (Z.max 10 200) 30.
Proof.
  apply (lightness_is_floor 10 200 30). unfold Color.valid, Color.channel. lia.
Defined.

Lemma lt_finite_cases (m M : positive) (e E : Z) :
  SFltb (S754_finite false m e) (S754_finite false M E) = true ->
  e < E \/ (e = E /\ (m < M)%positive).
Proof.
  unfold SFltb. cbn [SFcompare].
  destruct (e ?= E) eqn:C.
  - intros H. right. split; [apply Z.compare_eq; exact C |].
    unfold Pos.lt, Pos.compare. revert H.
    destruct (Pos.compare_cont Eq m M); cbn; congruence.
  - intros _. left. apply Z.compare_lt_iff. exact C.
  - discriminate.
Qed.

(** Truncating a float in [0, 253) gives an integer in [0, 252]. *)
Lemma int_of_float_below_253 (x : float) :
  Ranges.below_253 x = true ->
  exists z, Py.int_of_float x = Ok z /\ 0 <= z <= 252.
Proof.
  unfold Ranges.below_253. rewrite andb_true_iff, leb_spec, ltb_spec.
  replace (Prim2SF 0) with (S754_zero false) by reflexivity.
  replace (Prim2SF 253) with (S754_finite false 8901646138474496 (-45))
    by reflexivity.
  unfold Py.int_of_float. intros [H0 H1].
  destruct (Prim2SF x) as [s | s | | s m e] eqn:E.
  - exists 0. split; [reflexivity | lia].
  - destruct s; discriminate.
  - discriminate.
  - destruct s; [discriminate |]. cbn [cond_Zopp].
    exists (Z.shiftl (Zpos m) e). split; [reflexivity |].
    assert (Hc : e < -45 \/ (e = -45 /\ Zpos m < 253 * 2 ^ 45)).
    { apply lt_finite_cases in H1.
      destruct H1 as [Hlt | [He Hm]]; [left; exact Hlt | right; split; assumption]. }
    clear H1.
    destruct (bounded_inv m e (valid_finite x _ _ _ E)) as (Hd & He & _).
    apply digits2_pos_bound in Hd; [| lia].
    rewrite <- Z.shiftr_opp_r, Z.shiftr_div_pow2 by lia.
    assert (Hp : 0 < 2 ^ (- e)) by (apply Z.pow_pos_nonneg; lia).
    split; [apply Z.div_pos; lia |].
    assert (Zpos m / 2 ^ (- e) < 253); [| lia].
    apply Z.div_lt_upper_bound; [exact Hp |].
    destruct Hc as [Hlt | [-> Hm]].
    + replace (2 ^ (- e)) with (2 ^ 46 * 2 ^ (- e - 46))
        by (rewrite <- Z.pow_add_r by lia; f_equal; lia).
      assert (0 < 2 ^ (- e - 46)) by (apply Z.pow_pos_nonneg; lia).
      replace (2 ^ 53) with (2 ^ 46 * 128) in Hd by reflexivity.
      nia.
    + replace (2 ^ (- -45) * 253) with (253 * 2 ^ 45) by reflexivity. exact Hm.
Qed.

Lemma luminosity_rows : forallb Ranges.lum_row (Py.range 256) = true.
Proof. vm_cast_no_check (eq_refl true). Qed.

(** X3: the weights of [Color.luminosity] add up to 0.99, so on a triple of
    integers in [0, 255] the result never exceeds 252: white is mapped to
    252, not to 255. *)
Theorem luminosity_at_most_252 (r g b : Z) :
  Color.valid (r, g, b) ->
  (exists y, Color.luminosity (r, g, b) = Ok y /\ 0 <= y <= 252)
  /\ Color.luminosity Color.WHITE = Ok 252.
Proof.
  unfold Color.valid, Color.channel. intros (Hr & Hg & Hb).
  split; [| reflexivity].
  apply int_of_float_below_253.
  assert (Ir : In r (Py.range 256)) by (apply range_In; cbn; lia).
  assert (Ig : In g (Py.range 256)) by (apply range_In; cbn; lia).
  assert (Ib : In (0.07 * Py.of_int b)%float Checks.blues).
  { apply in_map_iff. exists b. split; [reflexivity | apply range_In; cbn; lia]. }
  pose proof (forallb_In _ _ r luminosity_rows Ir) as Hrow.
  pose proof (forallb_In _ _ g Hrow Ig) as Hcol.
  exact (forallb_In _ _ _ Hcol Ib).
Qed.

Lemma luminosity_at_most_252_witness :
  (exists y, Color.luminosity (200, 255, 7) = Ok y /\ 0 <= y <= 252)
  /\ Color.luminosity Color.WHITE = Ok 252.
Proof.
  apply (luminosity_at_most_252 200 255 7). unfold Color.valid, Color.channel. lia.
Defined.

End GreyExact.

(** ** The palette and the conversions: ranges *)

Module RangeFacts.

Import FloatFacts CompareFacts ArithFacts GreyFacts HueFacts.

Lemma valid_b_spec (c : Color.rgb) : Ranges.valid_b c = true -> Color.valid c.
Proof.
  destruct c as [[r g] b]. unfold Ranges.valid_b, Color.valid, Color.channel.
  rewrite !andb_true_iff, !byte_spec. tauto.
Qed.

Lemma palette_valid : forallb Ranges.valid_b Color.colors = true.
Proof. reflexivity. Qed.

(** X4: every entry of [Color.colors] is a triple of integers in [0, 255],
    so every possible result of [Color.random()] is a well-formed colour. *)
Theorem random_returns_valid (c : Color.rgb) :
  Color.random_returns c -> Color.valid c.
Proof.
  intros H. apply valid_b_spec.
  apply (forallb_In _ _ c palette_valid).
  apply RandomFacts.random_returns_member, H.
Qed.

Lemma random_returns_valid_witness : Color.valid Color.VIOLET.
Proof.
  apply (random_returns_valid Color.VIOLET).
  apply (Color.random_intro Color.VIOLET 5).
  - unfold Color.randint. simpl. lia.
  - reflexivity.
Defined.

(** X5: a grey (v, v, v), for any integer v, has hue 0 and saturation 0 and
    keeps v as its value; its hue is the hue of red, so [Color.hue2rgb]
    sends it to (255, 0, 0). *)
Theorem grey_has_hue_zero (v : Z) :
  Color.rgb2hsv (v, v, v) = Ok (0%float, 0%float, v)
  /\ Color.hue (v, v, v) = Ok 0%float
  /\ (h <- Color.hue (v, v, v) ;; Color.hue2rgb h) = Ok Color.RED.
Proof.
  unfold Color.rgb2hsv, Color.hue, colorsys.rgb_to_hsv.
  rewrite !Z.max_id, !Z.min_id, Z.eqb_refl. cbn [bind].
  replace (0 * 180)%float with 0%float by reflexivity.
  replace (0 * 255)%float with 0%float by reflexivity.
  repeat split; reflexivity.
Qed.

Lemma hue_rows_r : forallb Ranges.hue_row_r (Py.range 256) = true.
Proof. vm_cast_no_check (eq_refl true). Qed.

Lemma hue_rows_g : forallb Ranges.hue_row_g (Py.range 256) = true.
Proof. vm_cast_no_check (eq_refl true). Qed.

Lemma hue_rows_b : forallb Ranges.hue_row_b (Py.range 256) = true.
Proof. vm_cast_no_check (eq_refl true). Qed.

Lemma sat_rows : forallb Ranges.sat_row (Py.range 256) = true.
Proof. vm_cast_no_check (eq_refl true). Qed.

Lemma hue_in_range_zero_min (r g b : Z) :
  Color.valid (r, g, b) -> Z.min (Z.min r g) b = 0 ->
  Ranges.hue_in_range (r, g, b) = true.
Proof.
  unfold Color.valid, Color.channel. intros (Hr & Hg & Hb) Hmin.
  assert (Ir : In r (Py.range 256)) by (apply range_In; cbn; lia).
  assert (Ig : In g (Py.range 256)) by (apply range_In; cbn; lia).
  assert (Ib : In b (Py.range 256)) by (apply range_In; cbn; lia).
  assert (Hz : r = 0 \/ g = 0 \/ b = 0) by lia.
  destruct Hz as [-> | [-> | ->]].
  - exact (forallb_In _ _ b (forallb_In _ _ g hue_rows_r Ig) Ib).
  - exact (forallb_In _ _ b (forallb_In _ _ r hue_rows_g Ir) Ib).
  - exact (forallb_In _ _ g (forallb_In _ _ r hue_rows_b Ir) Ig).
Qed.

(** The hue of a well-formed colour lies in [0, 180). *)
Lemma hue_in_range (r g b : Z) :
  Color.valid (r, g, b) ->
  exists h, Color.hue (r, g, b) = Ok h
            /\ (0 <=? h)%float = true /\ (h <? 180)%float = true.
Proof.
  intros Hc. rewrite (hue_shift r g b Hc).
  pose proof Hc as Hc'. unfold Color.valid, Color.channel in Hc'.
  set (m := Z.min (Z.min r g) b) in *.
  assert (Hs : Ranges.hue_in_range (r - m, g - m, b - m) = true).
  { apply hue_in_range_zero_min; [unfold Color.valid, Color.channel |]; lia. }
  unfold Ranges.hue_in_range in Hs. rewrite rgb_to_hsv_small_eq in Hs.
  unfold Color.hue.
  destruct (colorsys.rgb_to_hsv (r - m) (g - m) (b - m)) as [[[h s] v] | e];
    [| discriminate].
  apply andb_true_iff in Hs. exists (h * 180)%float. now split.
Qed.

(** X6: on a triple of integers in [0, 255], [Color.rgb2hsv] returns a
    hue in [0, 180), a saturation in [0, 255] and a value in [0, 255]. *)
Theorem rgb2hsv_in_range (r g b : Z) :
  Color.valid (r, g, b) ->
  exists h s v,
    Color.rgb2hsv (r, g, b) = Ok (h, s, v)
    /\ (0 <=? h)%float = true /\ (h <? 180)%float = true
    /\ (0 <=? s)%float = true /\ (s <=? 255)%float = true
    /\ 0 <= v <= 255.
Proof.
  intros Hc. destruct (hue_in_range r g b Hc) as (h & Hh & Hh0 & Hh1).
  pose proof Hc as Hc'. unfold Color.valid, Color.channel in Hc'.
  unfold Color.hue in Hh. unfold Color.rgb2hsv.
  destruct (colorsys.rgb_to_hsv r g b) as [[[h0 s0] v0] | e] eqn:E;
    [| discriminate]. cbn [bind] in *. injection Hh as <-.
  exists (h0 * 180)%float, (s0 * 255)%float, v0.
  split; [reflexivity |]. split; [exact Hh0 |]. split; [exact Hh1 |].
  unfold colorsys.rgb_to_hsv in E.
  set (M := Z.max (Z.max r g) b) in *. set (m := Z.min (Z.min r g) b) in *.
  destruct (Z.eqb_spec m M) as [Em | Em].
  - injection E as _ <- <-. repeat split; try reflexivity; lia.
  - assert (H53 : 256 < 2 ^ 53) by reflexivity.
    rewrite !int_truediv_ok in E by lia. cbn [bind] in E.
    injection E as _ <- <-.
    assert (IM : In M (Py.range 256)) by (apply range_In; cbn; lia).
    assert (IR : In (M - m) (Py.range 256)) by (apply range_In; cbn; lia).
    pose proof (forallb_In _ _ (M - m) (forallb_In _ _ M sat_rows IM) IR) as Hs.
    unfold Ranges.sat_in_range in Hs.
    replace (0 <? M - m) with true in Hs by (symmetry; apply Z.ltb_lt; lia).
    replace (M - m <=? M) with true in Hs by (symmetry; apply Z.leb_le; lia).
    cbn [andb] in Hs. rewrite int_truediv_ok in Hs by lia.
    apply andb_true_iff in Hs. destruct Hs as [Hs0 Hs1].
    repeat split; try assumption; lia.
Qed.

Lemma rgb2hsv_in_range_witness :
  exists h s v,
    Color.rgb2hsv (10, 200, 30) = Ok (h, s, v)
    /\ (0 <=? h)%float = true /\ (h <? 180)%float = true
    /\ (0 <=? s)%float = true /\ (s <=? 255)%float = true
    /\ 0 <= v <= 255.
Proof.
  apply (rgb2hsv_in_range 10 200 30). unfold Color.valid, Color.channel. lia.
Defined.

Lemma integer_hues : forallb Ranges.integer_hue_ok (Py.range 181) = true.
Proof. vm_compute. reflexivity. Qed.

(** X7: for every integer hue h from 0 to 180, [Color.hue2rgb] returns a
    fully saturated colour of full value (largest channel 255, smallest 0)
    whose hue, as [Color.hue] computes it, is h up to the rounding of the
    channels, and [Color.hue2bgr] returns the same channels in the order
    blue, green, red. *)
Theorem integer_hue_round_trip (h : Z) :
  0 <= h <= 180 ->
  exists r g b h',
    Color.hue2rgb (Py.of_int h) = Ok (r, g, b)
    /\ Color.hue2bgr (Py.of_int h) = Ok (b, g, r)
    /\ Z.max (Z.max r g) b = 255
    /\ Z.min (Z.min r g) b = 0
    /\ Color.hue (r, g, b) = Ok h'
    /\ Checks.hue_close (Py.of_int h) h' = true.
Proof.
  intros Hh.
  assert (Ih : In h (Py.range 181)) by (apply range_In; cbn; lia).
  pose proof (forallb_In _ _ h integer_hues Ih) as H.
  unfold Ranges.integer_hue_ok in H. unfold Color.hue2bgr.
  destruct (Color.hue2rgb (Py.of_int h)) as [[[r g] b] | e]; [| discriminate].
  destruct (Color.hue (r, g, b)) as [h' | e] eqn:E;
    [| rewrite andb_false_r in H; discriminate].
  rewrite !andb_true_iff, !Z.eqb_eq in H. destruct H as [[Hmax Hmin] Hc].
  exists r, g, b, h'. repeat split; try assumption; reflexivity.
Qed.

Lemma integer_hue_round_trip_witness :
  exists r g b h',
    Color.hue2rgb (Py.of_int 45) = Ok (r, g, b)
    /\ Color.hue2bgr (Py.of_int 45) = Ok (b, g, r)
    /\ Z.max (Z.max r g) b = 255
    /\ Z.min (Z.min r g) b = 0
    /\ Color.hue (r, g, b) = Ok h'
    /\ Checks.hue_close (Py.of_int 45) h' = true.
Proof. apply (integer_hue_round_trip 45). lia. Defined.

Lemma negative_hues : forallb Ranges.negative_hue_green (Py.range 29) = true.
Proof. vm_compute. reflexivity. Qed.

(** X8: negative hues are not wrapped.  [colorsys.hsv_to_rgb] takes the
    sector with [int], which truncates toward zero, so for every integer
    hue h from -29 to -1 [Color.hue2rgb] returns a colour whose green
    channel is negative. *)
Theorem negative_hue_out_of_range (h : Z) :
  -29 <= h <= -1 ->
  exists r g b, Color.hue2rgb (Py.of_int h) = Ok (r, g, b) /\ g < 0.
Proof.
  intros Hh.
  assert (In' : In (- 1 - h) (Py.range 29))
    by (apply range_In; change (Z.of_nat 29) with 29; lia).
  pose proof (forallb_In _ _ _ negative_hues In') as H.
  unfold Ranges.negative_hue_green in H.
  replace (- 1 - (- 1 - h)) with h in H by lia.
  destruct (Color.hue2rgb (Py.of_int h)) as [[[r g] b] | e]; [| discriminate].
  exists r, g, b. split; [reflexivity | now apply Z.ltb_lt].
Qed.

Lemma negative_hue_out_of_range_witness :
  exists r g b, Color.hue2rgb (Py.of_int (-15)) = Ok (r, g, b) /\ g < 0.
Proof. apply (negative_hue_out_of_range (-15)). lia. Defined.

End RangeFacts.

(** ** ColorCurve: what the fitting branch stores *)

Module SampleFacts.

Import FloatFacts CompareFacts ArithFacts GreyFacts CurveFacts ClampFacts.

Lemma interval_nth (n : nat) :
  (n < 256)%nat ->
  nth_error ColorCurve.interval n = Some (Py.of_int (Z.of_nat n)).
Proof.
  intros Hn. unfold ColorCurve.interval, Py.range.
  rewrite !nth_error_map.
  rewrite (nth_error_nth' (seq 0 256) 0%nat) by (rewrite length_seq; exact Hn).
  rewrite seq_nth by exact Hn. reflexivity.
Qed.

Lemma eqb_refl_num (x : float) : is_nan x = false -> (x =? x)%float = true.
Proof. unfold is_nan. now destruct (x =? x)%float. Qed.

Lemma ltb_not_nan_l (x y : float) : (x <? y)%float = true -> is_nan x = false.
Proof.
  rewrite ltb_spec. unfold SFltb. intros H.
  destruct (is_nan x) eqn:N; [| reflexivity].
  apply is_nan_spec in N. rewrite N in H. discriminate.
Qed.

Lemma ltb_not_nan_r (x y : float) : (x <? y)%float = true -> is_nan y = false.
Proof.
  rewrite ltb_spec. unfold SFltb. intros H.
  destruct (is_nan y) eqn:N; [| reflexivity].
  apply is_nan_spec in N. rewrite N in H.
  destruct (Prim2SF x); discriminate.
Qed.

Lemma leb_not_nan_l (x y : float) : (x <=? y)%float = true -> is_nan x = false.
Proof.
  rewrite leb_spec. unfold SFleb. intros H.
  destruct (is_nan x) eqn:N; [| reflexivity].
  apply is_nan_spec in N. rewrite N in H. discriminate.
Qed.

(** x <= y and not x < y: the two are equal as numbers. *)
Lemma leb_not_ltb_eqb (x y : float) :
  (x <=? y)%float = true -> (x <? y)%float = false -> (y =? x)%float = true.
Proof.
  rewrite leb_spec, ltb_spec, eqb_spec. unfold SFleb, SFltb, SFeqb.
  destruct (SFcompare (Prim2SF x) (Prim2SF y)) as [[ | | ] |] eqn:E;
    try discriminate.
  intros _ _. now rewrite (SFcompare_swap _ _ _ E).
Qed.

(** X10: the branch of [ColorCurve.__init__] that fits the spline stores,
    for each of the 256 sample points, the sample itself when it lies in
    [0, 255], 255 when it is above 255 and 0 when it is below 0; a NaN
    sample stays a NaN. *)
Theorem points_branch_samples
    (fit : list float -> list float -> res (float -> float))
    (pts : list (float * float)) (spline : float -> float) (n : nat) :
  fit (map fst pts) (map snd pts) = Ok spline ->
  (n < 256)%nat ->
  exists curve z,
    ColorCurve.init fit (ColorCurve.Points pts) = Ok curve
    /\ nth_error curve n = Some z
    /\ (ColorCurve.in_range (spline (Py.of_int (Z.of_nat n))) = true ->
        (z =? spline (Py.of_int (Z.of_nat n)))%float = true)
    /\ ((255 <? spline (Py.of_int (Z.of_nat n)))%float = true -> z = 255%float)
    /\ ((spline (Py.of_int (Z.of_nat n)) <? 0)%float = true -> z = 0%float)
    /\ (is_nan (spline (Py.of_int (Z.of_nat n))) = true -> is_nan z = true).
Proof.
  intros Hfit Hn. cbn [ColorCurve.init]. rewrite Hfit. cbn [bind].
  eexists. eexists. split; [reflexivity |]. split.
  - rewrite nth_error_map, (interval_nth n Hn). reflexivity.
  - set (y := spline (Py.of_int (Z.of_nat n))).
    unfold ColorCurve.np_minimum, ColorCurve.np_maximum, ColorCurve.in_range.
    repeat split.
    + intros H. apply andb_true_iff in H as [H0 H255].
      pose proof (leb_not_nan_l _ _ H255) as N. rewrite N.
      destruct (y <? 255)%float eqn:L.
      * rewrite N. destruct (0 <? y)%float eqn:P.
        -- apply eqb_refl_num, N.
        -- pose proof (leb_not_ltb_eqb _ _ H0 P) as Hz.
           rewrite eqb_spec in Hz |- *. unfold SFeqb in *.
           destruct (SFcompare (Prim2SF y) (Prim2SF 0)) as [[ | | ] |] eqn:E;
             try discriminate.
           now rewrite (SFcompare_swap _ _ _ E).
      * replace (is_nan 255) with false by reflexivity.
        replace (0 <? 255)%float with true by reflexivity.
        apply (leb_not_ltb_eqb _ _ H255 L).
    + intros H. rewrite (ltb_not_nan_r _ _ H), (ltb_not_ltb _ _ H). reflexivity.
    + intros H. rewrite (ltb_not_nan_l _ _ H).
      assert (H255 : (y <? 255)%float = true)
        by (apply (ltb_trans _ 0%float); [exact H | reflexivity]).
      rewrite H255, (ltb_not_nan_l _ _ H), (ltb_not_ltb _ _ H). reflexivity.
    + intros H. now rewrite !H.
Qed.

Lemma points_branch_samples_witness :
  exists curve z,
    ColorCurve.init (fun _ _ => Ok ColorCurve.arch)
      (ColorCurve.Points [(0, 0); (85, 255); (170, 255); (255, 0)]%float) = Ok curve
    /\ nth_error curve 127 = Some z
    /\ (ColorCurve.in_range (ColorCurve.arch (Py.of_int (Z.of_nat 127))) = true ->
        (z =? ColorCurve.arch (Py.of_int (Z.of_nat 127)))%float = true)
    /\ ((255 <? ColorCurve.arch (Py.of_int (Z.of_nat 127)))%float = true -> z = 255%float)
    /\ ((ColorCurve.arch (Py.of_int (Z.of_nat 127)) <? 0)%float = true -> z = 0%float)
    /\ (is_nan (ColorCurve.arch (Py.of_int (Z.of_nat 127))) = true -> is_nan z = true).
Proof.
  apply (points_branch_samples (fun _ _ => Ok ColorCurve.arch)
           [(0, 0); (85, 255); (170, 255); (255, 0)]%float ColorCurve.arch 127).
  - reflexivity.
  - lia.
Defined.

Lemma init_length_witness :
  length (map ColorCurve.arch ColorCurve.interval) = 256%nat.
Proof.
  apply (init_length (fun _ _ => Raise ValueError)
           (ColorCurve.Spline ColorCurve.arch)).
  reflexivity.
Defined.

Lemma arch_is_a_number (x : float) :
  In x ColorCurve.interval -> is_nan (ColorCurve.arch x) = false.
Proof.
  intros Hx.
  assert (H : forallb (fun x => negb (is_nan (ColorCurve.arch x)))
                ColorCurve.interval = true) by (vm_compute; reflexivity).
  pose proof (forallb_In _ _ x H Hx) as Hn. cbv beta in Hn.
  now destruct (is_nan (ColorCurve.arch x)).
Defined.

Lemma points_branch_clamped_witness :
  exists curve,
    ColorCurve.init (fun _ _ => Ok ColorCurve.arch)
      (ColorCurve.Points [(0, 0); (85, 255); (170, 255); (255, 0)]%float) = Ok curve
    /\ length curve = 256%nat
    /\ Forall (fun y => ColorCurve.in_range y = true) curve.
Proof.
  apply (points_branch_clamped (fun _ _ => Ok ColorCurve.arch)
           [(0, 0); (85, 255); (170, 255); (255, 0)]%float ColorCurve.arch).
  - reflexivity.
  - exact arch_is_a_number.
Defined.

End SampleFacts.

(** ** ColorMap: construction errors, the first colour, descending ranges *)

Module LookupFacts.

Import FloatFacts CompareFacts ArithFacts GreyFacts DegenerateFacts ClampFacts
  SampleFacts.

(** X12: a sequence must hold at least two colours.  On an empty sequence
    the constructor fails with IndexError, and on a sequence of one colour
    it divides the range by len(color) - 1 = 0 and fails with
    ZeroDivisionError, whatever the range; no map is built, so no lookup
    is possible. *)
Theorem short_sequences_fail (c : Color.rgb) (s e v : float) :
  ColorMap.init (ColorMap.Sequence []) s e = Raise IndexError
  /\ ColorMap.init (ColorMap.Sequence [c]) s e = Raise ZeroDivisionError
  /\ ColorMap.lookup (ColorMap.Sequence []) s e v = Raise IndexError
  /\ ColorMap.lookup (ColorMap.Sequence [c]) s e v = Raise ZeroDivisionError.
Proof. repeat split; reflexivity. Qed.

Lemma pos_nonzero (x : float) : (0 <? x)%float = true -> (x =? 0)%float = false.
Proof.
  rewrite ltb_spec, eqb_spec. unfold SFltb, SFeqb.
  destruct (SFcompare (Prim2SF 0) (Prim2SF x)) as [[ | | ] |] eqn:E;
    try discriminate.
  intros _. now rewrite (SFcompare_swap _ _ _ E).
Qed.

(** +0.0 divided by a positive number is +0.0. *)
Lemma zero_div_pos (x : float) : (0 <? x)%float = true -> (0 / x)%float = 0%float.
Proof.
  rewrite ltb_spec. unfold SFltb. intros H.
  apply Prim2SF_inj. rewrite div_spec.
  replace (Prim2SF 0) with (S754_zero false) in * by reflexivity.
  destruct (Prim2SF x) as [s | [] | | [] m e]; try discriminate; reflexivity.
Qed.

Lemma second_channels : forallb Ranges.second_channel_dropped (Py.range 256) = true.
Proof. vm_compute. reflexivity. Qed.

Lemma first_channels : forallb Ranges.first_channel_kept (Py.range 256) = true.
Proof. vm_compute. reflexivity. Qed.

(** One channel of the blend at alpha = 0. *)
Lemma blend_channel_zero (a b : Z) :
  Color.channel a -> Color.channel b ->
  Py.int_of_float (Py.of_int a * (1 - 0) + Py.of_int b * 0)%float = Ok a.
Proof.
  unfold Color.channel. intros Ha Hb.
  assert (Ia : In a (Py.range 256)) by (apply range_In; cbn; lia).
  assert (Ib : In b (Py.range 256)) by (apply range_In; cbn; lia).
  pose proof (forallb_In _ _ b second_channels Ib) as H2.
  unfold Ranges.second_channel_dropped in H2.
  apply FloatAxioms.Leibniz.eqb_spec in H2. rewrite H2.
  pose proof (forallb_In _ _ a first_channels Ia) as H1.
  unfold Ranges.first_channel_kept in H1.
  destruct (Py.int_of_float _) as [z | err]; [| discriminate].
  apply Z.eqb_eq in H1. now subst.
Qed.

(** X13: a lookup at start_map returns the first colour exactly.  This
    holds for every constructed map whose range ascends from a finite
    start_map and whose color_distance is positive, over colours with
    channels in [0, 255]; a map built from one colour returns that colour. *)
Theorem getitem_at_start_map (color : ColorMap.color_arg) (s e : float)
    (self : ColorMap.t) (c0 c1 : Color.rgb) (rest : list Color.rgb) :
  ColorMap.init color s e = Ok self ->
  ColorMap.entries color = c0 :: c1 :: rest ->
  Color.valid c0 -> Color.valid c1 ->
  Py.finite s = true ->
  (s <? e)%float = true ->
  (0 <? ColorMap.color_distance self)%float = true ->
  ColorMap.getitem self s = Ok c0.
Proof.
  intros Hinit Hent V0 V1 Hfin Hse Hcd.
  assert (Hself : ColorMap.color self = c0 :: c1 :: rest
                  /\ ColorMap.start_map self = s /\ ColorMap.end_map self = e).
  { unfold ColorMap.init in Hinit.
    rewrite as_array_entries in Hinit by (rewrite Hent; cbn [length]; lia).
    cbn [bind] in Hinit.
    destruct (Py.truediv _ _) as [cd | err] in Hinit; [| discriminate Hinit].
    cbn [bind] in Hinit. injection Hinit as <-. cbn. auto. }
  destruct Hself as (Hc & Hs & He).
  unfold ColorMap.getitem, ColorMap.clamp. rewrite Hs, He, Hc.
  rewrite (ltb_not_ltb _ _ Hse), ltb_irrefl, (sub_diag s Hfin).
  unfold Py.truediv. rewrite (pos_nonzero _ Hcd), (zero_div_pos _ Hcd).
  cbn [bind].
  replace (Py.int_of_float 0) with (Ok 0) by reflexivity. cbn [bind].
  replace (0 - Py.of_int 0)%float with 0%float by reflexivity.
  replace (0 =? Z.of_nat (length (c0 :: c1 :: rest)) - 1) with false
    by (symmetry; apply Z.eqb_neq; cbn [length]; lia).
  replace (Py.getitem (c0 :: c1 :: rest) 0) with (Ok c0) by reflexivity.
  replace (Py.getitem (c0 :: c1 :: rest) (0 + 1)) with (Ok c1).
  2:{ symmetry. apply getitem_nth; [lia | reflexivity]. }
  cbn [bind].
  destruct c0 as [[r0 g0] b0], c1 as [[r1 g1] b1].
  destruct V0 as (Vr0 & Vg0 & Vb0), V1 as (Vr1 & Vg1 & Vb1).
  unfold ColorMap.blend, ColorMap.to_ints.
  rewrite !blend_channel_zero by assumption. reflexivity.
Qed.

Lemma getitem_at_start_map_witness :
  ColorMap.getitem (ColorMap.mk [Color.TEAL; Color.WHITE] 0 100 100 100) 0
  = Ok Color.TEAL.
Proof.
  apply (getitem_at_start_map (ColorMap.Single Color.TEAL) 0 100
           (ColorMap.mk [Color.TEAL; Color.WHITE] 0 100 100 100)
           Color.TEAL Color.WHITE []);
    try reflexivity; unfold Color.valid, Color.channel; simpl; lia.
Defined.

Lemma getitem_clamps_witness :
  ((-5 <? ColorMap.start_map (ColorMap.mk [Color.BLACK; Color.WHITE] 0 100 100 100))%float = true ->
   ColorMap.getitem (ColorMap.mk [Color.BLACK; Color.WHITE] 0 100 100 100) (-5)
   = ColorMap.getitem (ColorMap.mk [Color.BLACK; Color.WHITE] 0 100 100 100)
       (ColorMap.start_map (ColorMap.mk [Color.BLACK; Color.WHITE] 0 100 100 100)))
  /\ ((ColorMap.end_map (ColorMap.mk [Color.BLACK; Color.WHITE] 0 100 100 100) <? -5)%float = true ->
      ColorMap.getitem (ColorMap.mk [Color.BLACK; Color.WHITE] 0 100 100 100) (-5)
      = ColorMap.getitem (ColorMap.mk [Color.BLACK; Color.WHITE] 0 100 100 100)
          (ColorMap.end_map (ColorMap.mk [Color.BLACK; Color.WHITE] 0 100 100 100))).
Proof.
  apply (getitem_clamps (ColorMap.mk [Color.BLACK; Color.WHITE] 0 100 100 100) (-5)).
  reflexivity.
Defined.

Lemma SFcompare_eq_lt_trans (x y z : spec_float) :
  SFcompare x y = Some Eq -> SFcompare y z = Some Lt -> SFcompare x z = Some Lt.
Proof.
  destruct x as [sx | sx | | sx mx ex], y as [sy | sy | | sy my ey],
    z as [sz | sz | | sz mz ez]; cbn [SFcompare];
    repeat match goal with s : bool |- _ => destruct s end;
    try discriminate; try reflexivity;
    intros H1 H2; injection H1 as H1; injection H2 as H2; f_equal;
    fold_pos_compare;
    destruct (Z.compare_spec ex ey), (Z.compare_spec ey ez),
      (Z.compare_spec ex ez); subst; try lia; try discriminate; try reflexivity;
    destruct (Pos.compare_spec mx my), (Pos.compare_spec my mz),
      (Pos.compare_spec mx mz); subst; cbn [CompOpp] in *;
    try lia; try discriminate; reflexivity.
Qed.

Lemma leb_ltb_trans (x y z : float) :
  (x <=? y)%float = true -> (y <? z)%float = true -> (x <? z)%float = true.
Proof.
  rewrite leb_spec, !ltb_spec. unfold SFleb, SFltb.
  destruct (SFcompare (Prim2SF x) (Prim2SF y)) as [[ | | ] |] eqn:E1;
    try discriminate;
    destruct (SFcompare (Prim2SF y) (Prim2SF z)) as [[ | | ] |] eqn:E2;
    try discriminate; intros _ _.
  - now rewrite (SFcompare_eq_lt_trans _ _ _ E1 E2).
  - now rewrite (SFcompare_lt_trans _ _ _ E1 E2).
Qed.

(** X15: when a map is built with start_map > end_map, the clamping at the
    head of [__getitem__] replaces every value above end_map by end_map and
    every other number by start_map, so the lookup only tells whether the
    value is above end_map: two values on the same side of end_map get the
    same result.  Over the range 100 -> 0 the midpoint 50 gives the last
    colour, not a blend. *)
Theorem descending_range_two_sided (self : ColorMap.t) (v w : float) :
  (ColorMap.end_map self <? ColorMap.start_map self)%float = true ->
  is_nan v = false -> is_nan w = false ->
  ColorMap.clamp self v
  = (if (ColorMap.end_map self <? v)%float then ColorMap.end_map self
     else ColorMap.start_map self)
  /\ ((ColorMap.end_map self <? v)%float = (ColorMap.end_map self <? w)%float ->
      ColorMap.getitem self v = ColorMap.getitem self w)
  /\ ColorMap.lookup (ColorMap.Sequence [Color.BLACK; Color.WHITE]) 100 0 50
     = Ok Color.WHITE.
Proof.
  intros Hes Nv Nw.
  assert (Hclamp : forall u, is_nan u = false ->
            ColorMap.clamp self u
            = (if (ColorMap.end_map self <? u)%float then ColorMap.end_map self
               else ColorMap.start_map self)).
  { intros u Nu. unfold ColorMap.clamp.
    destruct (ColorMap.end_map self <? u)%float eqn:A; [reflexivity |].
    assert (Hle : (u <=? ColorMap.end_map self)%float = true).
    { apply not_ltb_leb; [exact (ltb_not_nan_l _ _ Hes) | exact Nu | exact A]. }
    now rewrite (leb_ltb_trans _ _ _ Hle Hes). }
  split; [apply Hclamp, Nv |]. split; [| reflexivity].
  intros Hsame. unfold ColorMap.getitem.
  now rewrite (Hclamp v Nv), (Hclamp w Nw), Hsame.
Qed.

Lemma descending_range_two_sided_witness :
  ColorMap.clamp (ColorMap.mk [Color.BLACK; Color.WHITE] 100 0 (-100) (-100)) 50
  = (if (ColorMap.end_map (ColorMap.mk [Color.BLACK; Color.WHITE] 100 0 (-100) (-100)) <? 50)%float
     then ColorMap.end_map (ColorMap.mk [Color.BLACK; Color.WHITE] 100 0 (-100) (-100))
     else ColorMap.start_map (ColorMap.mk [Color.BLACK; Color.WHITE] 100 0 (-100) (-100)))
  /\ ((ColorMap.end_map (ColorMap.mk [Color.BLACK; Color.WHITE] 100 0 (-100) (-100)) <? 50)%float
      = (ColorMap.end_map (ColorMap.mk [Color.BLACK; Color.WHITE] 100 0 (-100) (-100)) <? 75)%float ->
      ColorMap.getitem (ColorMap.mk [Color.BLACK; Color.WHITE] 100 0 (-100) (-100)) 50
      = ColorMap.getitem (ColorMap.mk [Color.BLACK; Color.WHITE] 100 0 (-100) (-100)) 75)
  /\ ColorMap.lookup (ColorMap.Sequence [Color.BLACK; Color.WHITE]) 100 0 50
     = Ok Color.WHITE.
Proof.
  apply (descending_range_two_sided
           (ColorMap.mk [Color.BLACK; Color.WHITE] 100 0 (-100) (-100)) 50 75);
    reflexivity.
Defined.

End LookupFacts.

(** ** ColorMap: two colours *)

Module TwoColourFacts.

Import FloatFacts CompareFacts ArithFacts GreyFacts DegenerateFacts ClampFacts
  SampleFacts LookupFacts.

Lemma div_eucl_exact (a b q : Z) :
  0 < b -> a = b * q -> Z.div_eucl a b = (q, 0).
Proof.
  intros Hb Ha. subst a.
  rewrite (surjective_pairing (Z.div_eucl (b * q) b)).
  change (fst (Z.div_eucl (b * q) b)) with (b * q / b).
  change (snd (Z.div_eucl (b * q) b)) with ((b * q) mod b).
  rewrite (Z.mul_comm b q), Z.div_mul, Z.mod_mul by lia. reflexivity.
Qed.

Lemma new_location_zero (n : Z) : new_location n 0 = loc_Exact.
Proof. unfold new_location. destruct (Z.even n); reflexivity. Qed.

(** A finite non-zero number divided by itself is 1.0. *)
Lemma SFdiv_self (s : bool) (m : positive) (e : Z) :
  SF64div (S754_finite s m e) (S754_finite s m e)
  = S754_finite false 4503599627370496 (-52).
Proof.
  unfold SF64div, SFdiv, SFdiv_core_binary. cbn [Zdigits2].
  replace (Zpos (digits2_pos m) + e - (Zpos (digits2_pos m) + e)) with 0 by lia.
  replace (e - e) with 0 by lia.
  replace (Z.min (fexp prec emax 0) 0) with (-53) by reflexivity.
  replace (0 - -53) with 53 by reflexivity.
  rewrite (div_eucl_exact (Z.shiftl (Zpos m) 53) (Zpos m) (2 ^ 53)).
  2: lia.
  2:{ rewrite Z.shiftl_mul_pow2 by lia. reflexivity. }
  rewrite new_location_zero.
  replace (xorb s s) with false by (destruct s; reflexivity).
  reflexivity.
Qed.

Lemma div_self (x : float) (s : bool) (m : positive) (e : Z) :
  Prim2SF x = S754_finite s m e -> (x / x)%float = 1%float.
Proof.
  intros H. apply Prim2SF_inj. rewrite div_spec, H, SFdiv_self. reflexivity.
Qed.

Lemma canonical_cases (m : positive) (e : Z) :
  bounded prec emax m e = true ->
  e <= 971
  /\ ((e = -1074 /\ Zpos (digits2_pos m) <= 53)
      \/ (-1074 < e /\ Zpos (digits2_pos m) = 53)).
Proof.
  unfold bounded, canonical_mantissa, fexp, emin. intros H.
  apply andb_true_iff in H as [H1 H2].
  apply Z.eqb_eq in H1. apply Z.leb_le in H2.
  change prec with 53 in *. change emax with 1024 in *. lia.
Qed.

(** Rounding leaves a canonical mantissa alone. *)
Lemma round_canonical (s : bool) (m : positive) (e : Z) :
  bounded prec emax m e = true ->
  binary_round_aux prec emax s (Zpos m) e loc_Exact = S754_finite s m e.
Proof.
  intros Hb. unfold bounded, canonical_mantissa in Hb.
  apply andb_true_iff in Hb as [H1 H2]. apply Z.eqb_eq in H1.
  unfold binary_round_aux, shr_fexp. cbn [Zdigits2 shr_record_of_loc].
  rewrite H1, Z.sub_diag.
  cbn [shr shr_m loc_of_shr_record round_nearest_even Zdigits2 shr_record_of_loc].
  rewrite H1, Z.sub_diag. cbn [shr shr_m]. now rewrite H2.
Qed.

(** A finite number divided by 1.0 is itself. *)
Lemma SFdiv_one (s : bool) (m : positive) (e : Z) :
  bounded prec emax m e = true ->
  SF64div (S754_finite s m e) (S754_finite false 4503599627370496 (-52))
  = S754_finite s m e.
Proof.
  intros Hb. destruct (canonical_cases m e Hb) as [Hle [[He Hd] | [He Hd]]].
  - subst e. unfold SF64div, SFdiv, SFdiv_core_binary. cbn [Zdigits2].
    replace (Zpos (digits2_pos 4503599627370496)) with 53 by reflexivity.
    replace (Z.min (fexp prec emax (Zpos (digits2_pos m) + -1074 - (53 + -52)))
               (-1074 - -52)) with (-1074).
    2:{ unfold fexp, emin. change prec with 53. change emax with 1024. lia. }
    replace (-1074 - -52 - -1074) with 52 by reflexivity.
    rewrite (div_eucl_exact (Z.shiftl (Zpos m) 52) 4503599627370496 (Zpos m)).
    2: reflexivity.
    2:{ rewrite Z.shiftl_mul_pow2 by lia. apply Z.mul_comm. }
    rewrite new_location_zero, xorb_false_r.
    now apply round_canonical.
  - unfold SF64div, SFdiv, SFdiv_core_binary. cbn [Zdigits2].
    replace (Zpos (digits2_pos 4503599627370496)) with 53 by reflexivity.
    rewrite Hd.
    replace (Z.min (fexp prec emax (53 + e - (53 + -52))) (e - -52)) with (e - 1).
    2:{ unfold fexp, emin. change prec with 53. change emax with 1024. lia. }
    replace (e - -52 - (e - 1)) with 53 by lia.
    rewrite (div_eucl_exact (Z.shiftl (Zpos m) 53) 4503599627370496 (Zpos m~0)).
    2: reflexivity.
    2:{ rewrite Z.shiftl_mul_pow2 by lia.
        change (2 ^ 53) with (2 * 4503599627370496). rewrite (Pos2Z.inj_xO m). ring. }
    rewrite new_location_zero, xorb_false_r.
    unfold binary_round_aux, shr_fexp. cbn [Zdigits2 shr_record_of_loc digits2_pos].
    rewrite Pos2Z.inj_succ, Hd.
    replace (fexp prec emax (Z.succ 53 + (e - 1)) - (e - 1)) with 1.
    2:{ unfold fexp, emin. change prec with 53. change emax with 1024. lia. }
    cbn [shr iter_pos shr_1 orb shr_m loc_of_shr_record round_nearest_even
         Zdigits2 shr_record_of_loc].
    rewrite Hd.
    replace (fexp prec emax (53 + (e - 1 + 1)) - (e - 1 + 1)) with 0.
    2:{ unfold fexp, emin. change prec with 53. change emax with 1024. lia. }
    cbn [shr shr_m].
    replace (e - 1 + 1) with e by lia.
    replace (e <=? emax - prec) with true; [reflexivity |].
    symmetry. apply Z.leb_le. change emax with 1024. change prec with 53. lia.
Qed.

Lemma div_one (x : float) : Py.finite x = true -> (x / 1)%float = x.
Proof.
  unfold Py.finite. intros H. apply Prim2SF_inj. rewrite div_spec.
  pose proof (Prim2SF_valid x) as V.
  replace (Prim2SF 1) with (S754_finite false 4503599627370496 (-52))
    by reflexivity.
  destruct (Prim2SF x) as [s | s | | s m e]; try discriminate.
  - destruct s; reflexivity.
  - apply SFdiv_one. exact V.
Qed.

Lemma div_one_finite (x : float) :
  Py.finite (x / 1)%float = true -> Py.finite x = true.
Proof.
  unfold Py.finite. rewrite div_spec.
  replace (Prim2SF 1) with (S754_finite false 4503599627370496 (-52))
    by reflexivity.
  destruct (Prim2SF x) as [s | s | | s m e]; cbn; congruence.
Qed.

Lemma pos_finite (x : float) :
  (0 <? x)%float = true -> Py.finite x = true ->
  exists m e, Prim2SF x = S754_finite false m e.
Proof.
  rewrite ltb_spec. unfold SFltb, Py.finite.
  replace (Prim2SF 0) with (S754_zero false) by reflexivity.
  destruct (Prim2SF x) as [s | s | | [] m e]; cbn; try discriminate.
  intros _ _. now exists m, e.
Qed.

(** X16: a map over exactly two colours (or built from one colour, which
    is paired with white) returns its last colour exactly at end_map,
    whenever the range ascends and color_distance is a positive number:
    the segment width is the range itself and the quotient of the range
    by itself is exactly 1, the last index. *)
Theorem two_colours_at_end_map (color : ColorMap.color_arg) (s e : float)
    (self : ColorMap.t) (c0 c1 : Color.rgb) :
  ColorMap.init color s e = Ok self ->
  ColorMap.entries color = [c0; c1] ->
  (s <? e)%float = true ->
  (0 <? ColorMap.color_distance self)%float = true ->
  Py.finite (ColorMap.color_distance self) = true ->
  ColorMap.color_distance self = ColorMap.value_range self
  /\ ColorMap.getitem self e = Ok c1
  /\ ColorMap.lookup color s e e = Ok c1.
Proof.
  intros Hinit Hent Hse Hpos Hfin.
  assert (Hself : self = ColorMap.mk [c0; c1] s e (e - s) ((e - s) / 1)).
  { unfold ColorMap.init in Hinit.
    rewrite as_array_entries in Hinit by (rewrite Hent; cbn [length]; lia).
    rewrite Hent in Hinit. cbn [bind length] in Hinit.
    replace (Py.of_int (Z.of_nat 2 - 1)) with 1%float in Hinit by reflexivity.
    unfold Py.truediv in Hinit.
    replace (1 =? 0)%float with false in Hinit by reflexivity.
    cbn [bind] in Hinit. now injection Hinit as <-. }
  subst self. cbn [ColorMap.color_distance ColorMap.value_range] in *.
  apply div_one_finite in Hfin.
  rewrite (div_one (e - s) Hfin) in *.
  assert (Hget : ColorMap.getitem (ColorMap.mk [c0; c1] s e (e - s) (e - s)) e
                 = Ok c1).
  { destruct (pos_finite _ Hpos Hfin) as (m & ex & Hd).
    unfold ColorMap.getitem, ColorMap.clamp.
    cbn [ColorMap.start_map ColorMap.end_map ColorMap.color ColorMap.color_distance].
    rewrite ltb_irrefl, (ltb_not_ltb _ _ Hse).
    unfold Py.truediv. rewrite (pos_nonzero _ Hpos), (div_self _ _ _ _ Hd).
    reflexivity. }
  split; [reflexivity |]. split; [exact Hget |].
  unfold ColorMap.lookup. rewrite Hinit. exact Hget.
Qed.

Lemma two_colours_at_end_map_witness :
  ColorMap.color_distance (ColorMap.mk [Color.TEAL; Color.WHITE] 0 100 100 100)
  = ColorMap.value_range (ColorMap.mk [Color.TEAL; Color.WHITE] 0 100 100 100)
  /\ ColorMap.getitem (ColorMap.mk [Color.TEAL; Color.WHITE] 0 100 100 100) 100
     = Ok Color.WHITE
  /\ ColorMap.lookup (ColorMap.Single Color.TEAL) 0 100 100 = Ok Color.WHITE.
Proof.
  apply (two_colours_at_end_map (ColorMap.Single Color.TEAL) 0 100
           (ColorMap.mk [Color.TEAL; Color.WHITE] 0 100 100 100)
           Color.TEAL Color.WHITE); reflexivity.
Defined.

End TwoColourFacts.

(** ** ColorMap: a NaN as the value *)

Module NanFacts.

Import CompareFacts.

(** X17: a NaN is not clamped, since both comparisons at the head of
    [__getitem__] are false for it; on every map whose color_distance is
    not zero the quotient is a NaN as well and the lookup raises ValueError
    at [int(value)]. *)
Theorem nan_lookup_raises (self : ColorMap.t) (v : float) :
  is_nan v = true ->
  (ColorMap.color_distance self =? 0)%float = false ->
  ColorMap.clamp self v = v
  /\ ColorMap.getitem self v = Raise ValueError.
Proof.
  intros Hv Hcd. apply is_nan_spec in Hv.
  assert (Hclamp : ColorMap.clamp self v = v).
  { unfold ColorMap.clamp. rewrite !ltb_spec, Hv. unfold SFltb.
    destruct (Prim2SF (ColorMap.end_map self)); cbn;
      destruct (Prim2SF (ColorMap.start_map self)); reflexivity. }
  split; [exact Hclamp |].
  unfold ColorMap.getitem. rewrite Hclamp. unfold Py.truediv. rewrite Hcd.
  cbn [bind]. unfold Py.int_of_float at 1.
  rewrite div_spec, sub_spec, Hv. reflexivity.
Qed.

Lemma nan_lookup_raises_witness :
  ColorMap.clamp (ColorMap.mk [Color.BLACK; Color.WHITE] 0 100 100 100) nan = nan
  /\ ColorMap.getitem (ColorMap.mk [Color.BLACK; Color.WHITE] 0 100 100 100) nan
     = Raise ValueError.
Proof.
  apply (nan_lookup_raises (ColorMap.mk [Color.BLACK; Color.WHITE] 0 100 100 100) nan);
    reflexivity.
Defined.

End NanFacts.

(** ** ColorCurve: a ready-made spline *)

Module ClassFacts.

Import CurveFacts SampleFacts.

(** C1, on the code: a ready-made spline is not served as the claim says.
    The constructor tests for the exact class [UnivariateSpline].  A spline
    object of a subclass, which is what scipy hands out for an
    interpolating fit, misses the test, is treated as an array of points and
    the construction raises IndexError: no curve is produced, whatever the
    spline evaluates to.  An object of the exact class is sampled as it is:
    the curve has 256 entries and entry n is the spline's value at n,
    without the clamp of the other branch, so the entries lie in [0, 255]
    exactly when the samples do. *)
Theorem prebuilt_spline_not_served
    (fit : list float -> list float -> res (float -> float)) :
  (forall spline : float -> float,
     ColorCurve.init fit (ColorCurve.SplineSubclass spline) = Raise IndexError)
  /\ (forall spline : float -> float,
       exists curve,
         ColorCurve.init fit (ColorCurve.Spline spline) = Ok curve
         /\ length curve = 256%nat
         /\ (forall n, (n < 256)%nat ->
                nth_error curve n = Some (spline (Py.of_int (Z.of_nat n))))
         /\ (Forall (fun y => ColorCurve.in_range y = true) curve
             <-> forall n, (n < 256)%nat ->
                   ColorCurve.in_range (spline (Py.of_int (Z.of_nat n))) = true)).
Proof.
  split; [reflexivity |].
  intros spline. exists (map spline ColorCurve.interval).
  assert (Hnth : forall n, (n < 256)%nat ->
            nth_error (map spline ColorCurve.interval) n
            = Some (spline (Py.of_int (Z.of_nat n)))).
  { intros n Hn. now rewrite nth_error_map, (interval_nth n Hn). }
  split; [reflexivity |]. split; [| split; [exact Hnth |]].
  - rewrite length_map. apply interval_length.
  - split.
    + intros Hall n Hn. rewrite Forall_forall in Hall.
      apply Hall. eapply nth_error_In. exact (Hnth n Hn).
    + intros Hall. apply Forall_forall. intros y Hy.
      apply In_nth_error in Hy as [n Hy].
      assert (Hn : (n < 256)%nat).
      { rewrite <- interval_length, <- (length_map spline).
        apply nth_error_Some. now rewrite Hy. }
      rewrite (Hnth n Hn) in Hy. injection Hy as <-. now apply Hall.
Qed.

End ClassFacts.
